(** * goog.storage.mechanism.HTML5WebStorage

    A shallow embedding of closure/goog/storage/mechanism/html5webstorage.js
    and the properties its design document states about it.

    The mechanism is a thin adapter over a host [Storage] object
    (window.localStorage or window.sessionStorage).  The adapter's methods are
    embedded as computations in a state-and-exception monad; the host object
    is modelled separately (module [Host]) so that the two can be told apart:
    what is proved about the methods is proved for every write policy of the
    host.

    The second part embeds closure/goog/window/window.js (goog.window.open,
    openBlank and popup) over a trace of effects and an environment that
    stands for the browser. *)

From Stdlib Require Import Ascii String List Bool Arith Lia.
Import ListNotations.
Local Open Scope string_scope.
Local Open Scope list_scope.

(** ** JavaScript values, as far as the storage interface exposes them *)

Module JS.

(** The source insists that "values can be of any type", so a stored value
    is any JavaScript value, not only a string. *)
Inductive Value : Type :=
| Undefined
| Null
| Boolean (b : bool)
| Number (n : nat)
| Str (s : string)
| Object (tag : string).

(** The [typeof] operator. *)
Definition typeof (v : Value) : string :=
  match v with
  | Undefined => "undefined"
  | Null => "object"
  | Boolean _ => "boolean"
  | Number _ => "number"
  | Str _ => "string"
  | Object _ => "object"
  end.

(** [v === null] *)
Definition is_null (v : Value) : bool :=
  match v with Null => true | _ => false end.

(** Truthiness of an object reference that may be [null]. *)
Definition truthy_ref {A : Type} (r : option A) : bool :=
  match r with Some _ => true | None => false end.

End JS.

(** ** Error codes and thrown values *)

(** Modelled from the spec: goog.storage.mechanism.ErrorCode (errorcode.js is
    not among the sources).  The design document enumerates the failure
    reasons as storage disabled, quota exceeded and invalid value. *)
Inductive ErrorCode : Type :=
| INVALID_VALUE
| QUOTA_EXCEEDED
| STORAGE_DISABLED.

(** What a [throw] can carry in this file: one of the mechanism's error codes,
    an exception raised by the host object, the [TypeError] of a member access
    on [null], or a failed goog.asserts assertion. *)
Inductive Exn : Type :=
| Code (c : ErrorCode)
| DOMException (name : string)
| TypeError
| AssertionError.

(** ** Completions and the state-and-exception monad *)

(** A call either returns normally or completes abruptly with a thrown value;
    in both cases the side effects it had on the state remain. *)
Inductive Completion (A : Type) : Type :=
| Normal (a : A)
| Throw (e : Exn).
Arguments Normal {A} a.
Arguments Throw {A} e.

Definition M (St A : Type) : Type := St -> Completion A * St.

Definition ret {St A : Type} (a : A) : M St A :=
  fun s => (Normal a, s).

Definition throw {St A : Type} (e : Exn) : M St A :=
  fun s => (Throw e, s).

Definition bind {St A B : Type} (m : M St A) (f : A -> M St B) : M St B :=
  fun s =>
    match m s with
    | (Normal a, s') => f a s'
    | (Throw e, s') => (Throw e, s')
    end.

(** [try { body } catch (e) { handler e }] *)
Definition try_catch {St A : Type} (body : M St A) (handler : Exn -> M St A)
  : M St A :=
  fun s =>
    match body s with
    | (Normal a, s') => (Normal a, s')
    | (Throw e, s') => handler e s'
    end.

(** Reading a field or a closure variable. *)
Definition read {St A : Type} (proj : St -> A) : M St A :=
  fun s => (Normal (proj s), s).

(** Running a computation on a component of the state. *)
Definition zoom {St T A : Type} (proj : St -> T) (upd : T -> St -> St)
  (m : M T A) : M St A :=
  fun s => let (r, t') := m (proj s) in (r, upd t' s).

Declare Scope js_scope.
Delimit Scope js_scope with js.
Notation "x <- m ;; k" := (bind m (fun x => k))
  (at level 61, m at next level, right associativity) : js_scope.
Notation "m ;; k" := (bind m (fun _ => k))
  (at level 61, right associativity) : js_scope.
Local Open Scope js_scope.

Definition result {St A : Type} (r : Completion A * St) : Completion A := fst r.
Definition state_after {St A : Type} (r : Completion A * St) : St := snd r.

(** ** The host Storage object

    The object behind [this.storage_] belongs to the browser, not to the
    library.  It is modelled after the interface the source relies on
    (setItem, getItem, removeItem, clear, length, key): an ordered collection
    of entries, at most one per key, enumerated by position.  Only [setItem]
    can throw; whether it does, and what it throws, is the host's business
    and is left open as a field of the object.  The object also keeps a
    journal of the calls made on it, which serves to state which calls a
    method makes. *)

Module Host.

Definition Items : Type := list (string * JS.Value).

(** The value stored under [k], if any (first match). *)
Fixpoint assoc (k : string) (l : Items) : option JS.Value :=
  match l with
  | [] => None
  | (k', v) :: rest => if String.eqb k' k then Some v else assoc k rest
  end.

(** Store [v] under [k]: in place when [k] is present, at the end
    otherwise. *)
Fixpoint put (k : string) (v : JS.Value) (l : Items) : Items :=
  match l with
  | [] => [(k, v)]
  | (k', v') :: rest =>
      if String.eqb k' k then (k, v) :: rest else (k', v') :: put k v rest
  end.

(** Remove the entry under [k]. *)
Definition drop (k : string) (l : Items) : Items :=
  filter (fun e => negb (String.eqb (fst e) k)) l.

(** The key at position [n], or [null] past the end. *)
Definition key_at (n : nat) (l : Items) : JS.Value :=
  match nth_error l n with
  | Some (k, _) => JS.Str k
  | None => JS.Null
  end.

Inductive Call : Type :=
| call_setItem (k v : string)
| call_getItem (k : string)
| call_removeItem (k : string)
| call_clear
| call_length
| call_key (n : nat).

Record Storage : Type := mkStorage {
  items : Items;
  (** [write_fault l k v] is what [setItem(k, v)] throws when the entries
      are [l], or [None] when the write is accepted. *)
  write_fault : Items -> string -> string -> option Exn;
  journal : list Call
}.

Definition with_items (l : Items) (s : Storage) : Storage :=
  {| items := l; write_fault := write_fault s; journal := journal s |}.

Definition logged (c : Call) (s : Storage) : Storage :=
  {| items := items s; write_fault := write_fault s;
     journal := journal s ++ [c] |}.

(** A rejected write leaves the entries as they were. *)
Definition setItem (k v : string) : M Storage unit :=
  fun s =>
    let s := logged (call_setItem k v) s in
    match write_fault s (items s) k v with
    | Some e => (Throw e, s)
    | None => (Normal tt, with_items (put k (JS.Str v) (items s)) s)
    end.

(** What [getItem(k)] answers: the stored value, or [null] when there is
    no entry under [k]. *)
Definition value_of (k : string) (l : Items) : JS.Value :=
  match assoc k l with
  | Some v => v
  | None => JS.Null
  end.

Definition getItem (k : string) : M Storage JS.Value :=
  fun s =>
    let s := logged (call_getItem k) s in
    (Normal (value_of k (items s)), s).

Definition removeItem (k : string) : M Storage unit :=
  fun s =>
    let s := logged (call_removeItem k) s in
    (Normal tt, with_items (drop k (items s)) s).

Definition clear : M Storage unit :=
  fun s =>
    let s := logged call_clear s in
    (Normal tt, with_items [] s).

Definition length : M Storage nat :=
  fun s =>
    let s := logged call_length s in
    (Normal (List.length (items s)), s).

Definition key (n : nat) : M Storage JS.Value :=
  fun s =>
    let s := logged (call_key n) s in
    (Normal (key_at n (items s)), s).

(** A call through a reference that may be [null]. *)
Definition deref {A : Type} (m : M Storage A) : M (option Storage) A :=
  fun r =>
    match r with
    | None => (Throw TypeError, None)
    | Some s => let (c, s') := m s in (c, Some s')
    end.

(** Well-formed entries: at most one entry per key. *)
Definition wf (l : Items) : Prop := NoDup (map fst l).

(** Every stored value is a string. *)
Definition all_strings (l : Items) : bool :=
  forallb (fun e => String.eqb (JS.typeof (snd e)) "string") l.

Definition is_getItem (c : Call) : bool :=
  match c with call_getItem _ => true | _ => false end.

End Host.

(** ** goog.iter and goog.asserts, as far as the mechanism uses them

    Neither library is among the sources; the iterator uses them only to
    build its result objects and to assert that a key is a string. *)

(** The result objects of an ES6 iterator: [{done, value}]. *)
Record IIterableResult : Type := {
  done : bool;
  value : JS.Value
}.

Definition ES6_ITERATOR_DONE : IIterableResult :=
  {| done := true; value := JS.Undefined |}.

Definition createEs6IteratorYield (v : JS.Value) : IIterableResult :=
  {| done := false; value := v |}.

(** goog.asserts.assertString (goog.asserts is not among the sources), taken
    with assertions enabled: the argument itself when it is a string, a
    thrown assertion error otherwise.  The iterator only applies it to
    [storage.key(i)] with [i] below [storage.length], which is a string, so
    nothing below depends on what a failed assertion does. *)
Definition assertString {St : Type} (v : JS.Value) : M St string :=
  match v with
  | JS.Str s => ret s
  | _ => throw AssertionError
  end.

(** ** The mechanism *)

Record HTML5WebStorage : Type := {
  (** The web storage object (window.localStorage or window.sessionStorage). *)
  storage_ : option Host.Storage
}.

(** The constructor. *)
Definition new_HTML5WebStorage (storage : option Host.Storage)
  : HTML5WebStorage :=
  {| storage_ := storage |}.

(** [this.storage_.m(...)] *)
Definition this_storage_ {A : Type} (m : M Host.Storage A)
  : M HTML5WebStorage A :=
  zoom storage_ (fun r _ => {| storage_ := r |}) (Host.deref m).

Definition STORAGE_AVAILABLE_KEY_ : string := "__sak".

Definition isAvailable : M HTML5WebStorage bool :=
  storage <- read storage_ ;;
  if negb (JS.truthy_ref storage) then ret false
  else
    try_catch
      (this_storage_ (Host.setItem STORAGE_AVAILABLE_KEY_ "1") ;;
       this_storage_ (Host.removeItem STORAGE_AVAILABLE_KEY_) ;;
       ret true)
      (fun e => ret false).

Definition set (key value : string) : M HTML5WebStorage unit :=
  try_catch
    (this_storage_ (Host.setItem key value))
    (fun e =>
       len <- this_storage_ Host.length ;;
       if Nat.eqb len 0 then throw (Code STORAGE_DISABLED)
       else throw (Code QUOTA_EXCEEDED)).

Definition get (key : string) : M HTML5WebStorage JS.Value :=
  value <- this_storage_ (Host.getItem key) ;;
  if negb (String.eqb (JS.typeof value) "string") && negb (JS.is_null value)
  then throw (Code INVALID_VALUE)
  else ret value.

Definition remove (key : string) : M HTML5WebStorage unit :=
  this_storage_ (Host.removeItem key).

Definition getCount : M HTML5WebStorage nat :=
  this_storage_ Host.length.

Definition clear : M HTML5WebStorage unit :=
  this_storage_ Host.clear.

Definition key (index : nat) : M HTML5WebStorage JS.Value :=
  this_storage_ (Host.key index).

(** The iterator object returned by [__iterator__]: the variables its [next]
    closes over.  [storage] is the same object as [this.storage_]. *)
Module newIter.

Record Closure : Type := {
  opt_keys : bool;
  i : nat;
  storage : option Host.Storage
}.

(** [storage.m(...)] *)
Definition storage_call {A : Type} (m : M Host.Storage A) : M Closure A :=
  zoom storage
    (fun r c => {| opt_keys := opt_keys c; i := i c; storage := r |})
    (Host.deref m).

(** [i++] *)
Definition post_increment_i : M Closure nat :=
  fun c =>
    (Normal (i c),
     {| opt_keys := opt_keys c; i := S (i c); storage := storage c |}).

Definition next : M Closure IIterableResult :=
  i0 <- read i ;;
  len <- storage_call Host.length ;;
  if Nat.leb len i0 then ret ES6_ITERATOR_DONE
  else
    i1 <- post_increment_i ;;
    k <- storage_call (Host.key i1) ;;
    key <- assertString k ;;
    keys_only <- read opt_keys ;;
    if keys_only then ret (createEs6IteratorYield (JS.Str key))
    else
      value <- storage_call (Host.getItem key) ;;
      (* The value must exist and be a string. *)
      if negb (String.eqb (JS.typeof value) "string")
      then throw (Code INVALID_VALUE)
      else ret (createEs6IteratorYield value).

End newIter.

Definition __iterator__ (opt_keys : bool) : M HTML5WebStorage newIter.Closure :=
  storage <- read storage_ ;;
  ret {| newIter.opt_keys := opt_keys; newIter.i := 0;
         newIter.storage := storage |}.

(** ** Running an iteration to completion

    The loop of a consumer such as goog.iter.forEach: call [next] until it
    reports [done]; a thrown value ends the traversal.  The loop is
    [while (true)] in JavaScript, hence the fuel. *)

Inductive Outcome : Type :=
| Finished
| Aborted (e : Exn)
| OutOfFuel.

Fixpoint traverse (fuel : nat) (it : newIter.Closure)
  : list JS.Value * Outcome * newIter.Closure :=
  match fuel with
  | 0 => ([], OutOfFuel, it)
  | S fuel' =>
      match newIter.next it with
      | (Throw e, it') => ([], Aborted e, it')
      | (Normal r, it') =>
          if done r then ([], Finished, it')
          else
            let '(vs, o, it'') := traverse fuel' it' in
            (value r :: vs, o, it'')
      end
  end.

Definition yielded (r : list JS.Value * Outcome * newIter.Closure)
  : list JS.Value := fst (fst r).
Definition outcome (r : list JS.Value * Outcome * newIter.Closure)
  : Outcome := snd (fst r).
Definition final (r : list JS.Value * Outcome * newIter.Closure)
  : newIter.Closure := snd r.

(** ** Sample hosts *)

(** A host that accepts every write. *)
Definition accept_all : Host.Items -> string -> string -> option Exn :=
  fun _ _ _ => None.

(** A host that rejects every write (Safari in private mode). *)
Definition private_mode : Host.Items -> string -> string -> option Exn :=
  fun _ _ _ => Some (DOMException "QuotaExceededError").

(** A host with room for [n] entries. *)
Definition capacity (n : nat) : Host.Items -> string -> string -> option Exn :=
  fun l k _ =>
    match Host.assoc k l with
    | Some _ => None
    | None =>
        if Nat.ltb (List.length l) n then None
        else Some (DOMException "QuotaExceededError")
    end.

Definition mechanism (l : Host.Items)
  (policy : Host.Items -> string -> string -> option Exn) : HTML5WebStorage :=
  new_HTML5WebStorage (Some (Host.mkStorage l policy [])).

Definition no_storage : HTML5WebStorage := new_HTML5WebStorage None.

Definition sample_items : Host.Items :=
  [("a", JS.Str "1"); ("b", JS.Str "2"); ("c", JS.Number 3); ("d", JS.Str "4")].

(** The entries behind a mechanism, and the value stored under a key. *)
Definition entries (this : HTML5WebStorage) : Host.Items :=
  match storage_ this with
  | Some s => Host.items s
  | None => []
  end.

Definition entry (k : string) (this : HTML5WebStorage) : option JS.Value :=
  Host.assoc k (entries this).

(** The iterator of a mechanism whose storage object is [s], standing at
    position [n]. *)
Definition iterator_at (keys_only : bool) (n : nat) (s : Host.Storage)
  : newIter.Closure :=
  {| newIter.opt_keys := keys_only; newIter.i := n;
     newIter.storage := Some s |}.

(** The calls one [next] makes at position [n] when the key there is [k]. *)
Definition calls_of_next (keys_only : bool) (n : nat) (k : string)
  : list Host.Call :=
  if keys_only then [Host.call_length; Host.call_key n]
  else [Host.call_length; Host.call_key n; Host.call_getItem k].

(** What the value iteration sees at an entry: the answer of [getItem] for
    the entry's key. *)
Definition seen_value (l : Host.Items) (e : string * JS.Value) : JS.Value :=
  Host.value_of (fst e) l.

Definition is_string (v : JS.Value) : bool :=
  String.eqb (JS.typeof v) "string".

Definition not_getItem (c : Host.Call) : bool := negb (Host.is_getItem c).

(** The calls journalled on the storage object an iterator holds. *)
Definition iterator_calls (it : newIter.Closure) : list Host.Call :=
  match newIter.storage it with
  | Some s => Host.journal s
  | None => []
  end.

(** The entries of the storage object an iterator holds. *)
Definition iterator_entries (it : newIter.Closure) : Host.Items :=
  match newIter.storage it with
  | Some s => Host.items s
  | None => []
  end.

(** The calls that only read the backend. *)
Definition is_read_call (c : Host.Call) : bool :=
  match c with
  | Host.call_getItem _ | Host.call_length | Host.call_key _ => true
  | _ => false
  end.

(** * goog.window

    closure/goog/window/window.js: opening browser windows.  What the
    functions do to the page and the browser is recorded as a trace of
    effects; everything they ask of the browser and of the libraries they
    build on (goog.html.SafeUrl, goog.string, goog.dom.safe, goog.userAgent,
    none of them among the sources) is a field of the environment [Env], so
    that what is proved holds for every browser and every such library. *)

Module Window.

(** A plain object, as the enumeration of its own properties. *)
Definition Obj : Type := list (string * JS.Value).

(** [o[name]] *)
Definition get_prop (name : string) (o : Obj) : JS.Value :=
  match Host.assoc name o with
  | Some v => v
  | None => JS.Undefined
  end.

(** [o[name] = v] *)
Definition set_prop (name : string) (v : JS.Value) (o : Obj) : Obj :=
  Host.put name v o.

(** ToBoolean. *)
Definition truthy (v : JS.Value) : bool :=
  match v with
  | JS.Undefined | JS.Null => false
  | JS.Boolean b => b
  | JS.Number n => negb (Nat.eqb n 0)
  | JS.Str s => negb (String.eqb s "")
  | JS.Object _ => true
  end.

(** [a || b] *)
Definition or_else (a b : JS.Value) : JS.Value :=
  if truthy a then a else b.

Definition is_undefined (v : JS.Value) : bool :=
  match v with JS.Undefined => true | _ => false end.

(** A goog.html.SafeUrl: a wrapped string. *)
Record SafeUrl : Type := { wrapped : string }.

(** The first argument of [linkRef]: a SafeUrl, a string, an object with its
    [href] and [target] properties and the string [String()] makes of it, or
    [null]. *)
Inductive LinkRef : Type :=
| LinkSafeUrl (u : SafeUrl)
| LinkString (s : string)
| LinkObject (href target : JS.Value) (to_string : string)
| LinkNull.

Record Navigator : Type := { standalone : JS.Value }.

(** A window that can serve as parent. *)
Record Win : Type := {
  name : string;
  navigator : option Navigator
}.

Record Document : Type := { write : bool }.

(** A window the browser has just opened. *)
Record Popup : Type := { document : option Document }.

(** What is handed to the browser as the URL to open. *)
Inductive OpenUrl : Type :=
| EmptyUrl
| Url (u : SafeUrl).

Inductive Effect : Type :=
| openInWindow (url : OpenUrl) (parent : Win) (target : JS.Value)
    (features : string)
| set_opener_null
| documentWrite (html : string)
| document_close
| createElement_A
| setAnchorHref (u : SafeUrl)
| setAttribute (attribute : string) (v : JS.Value)
| dispatch_click (view : Win)
| focus.

(** What [open] returns: [null], the emulated window [{}], or the window
    that was opened. *)
Inductive Opened : Type :=
| NoWindow
| FakeWindow
| NewWindow (w : Popup).

Inductive Thrown : Type :=
| JsTypeError
| JsError (message : string).

Inductive Ended (A : Type) : Type :=
| Returns (a : A)
| Throws (t : Thrown).
Arguments Returns {A} a.
Arguments Throws {A} t.

Record Env : Type := {
  ENFORCE_COOP : bool;
  (** [self.crossOriginIsolated] *)
  crossOriginIsolated : JS.Value;
  (** [new Request('/').referrerPolicy], when [window.Request] exists *)
  Request_referrerPolicy : option string;
  (** [goog.labs.userAgent.platform.isIos()] *)
  isIos : bool;
  (** [goog.userAgent.EDGE_OR_IE] *)
  EDGE_OR_IE : bool;
  (** the global [window] *)
  window : Win;
  (** what goog.dom.safe.openInWindow returns: the new window, or [null]
      when a popup blocker is in the way *)
  browser_opens : OpenUrl -> Win -> JS.Value -> string -> option Popup;
  (** ToString, as applied by [+] and by [String()] *)
  ToString : JS.Value -> string;
  (** goog.html.SafeUrl.sanitize *)
  sanitize : JS.Value -> SafeUrl;
  (** goog.string.htmlEscape and goog.string.escapeString *)
  htmlEscape : string -> string;
  escapeString : string -> string;
  encodeURI : string -> string
}.

Definition DEFAULT_POPUP_HEIGHT : nat := 500.
Definition DEFAULT_POPUP_WIDTH : nat := 690.
Definition DEFAULT_POPUP_TARGET : string := "google_popup".

Definition createFakeWindow_ : Opened := FakeWindow.

(** [goog.html.SafeUrl.unwrap] *)
Definition unwrap (u : SafeUrl) : string := wrapped u.

(** [goog.string.contains(s, ';')] *)
Fixpoint contains_semicolon (s : string) : bool :=
  match s with
  | EmptyString => false
  | String c rest =>
      if Ascii.eqb c ";"%char then true else contains_semicolon rest
  end.

(** [s.replace(/'/g, '%27')] *)
Fixpoint replace_quotes (s : string) : string :=
  match s with
  | EmptyString => EmptyString
  | String c rest =>
      if Ascii.eqb c "'"%char
      then String.append "%27" (replace_quotes rest)
      else String c (replace_quotes rest)
  end.

(** [linkRef.target] for a [linkRef] that is not [null]. *)
Definition link_target (linkRef : LinkRef) : JS.Value :=
  match linkRef with
  | LinkObject _ target _ => target
  | _ => JS.Undefined
  end.

(** [target != '_self']: the loose comparison of a value with the string
    ['_self']; numbers, booleans, [null] and [undefined] never equal it, an
    object is compared through its string. *)
Definition differs_from_self (e : Env) (target : JS.Value) : bool :=
  match target with
  | JS.Str s => negb (String.eqb s "_self")
  | JS.Object _ => negb (String.eqb (ToString e target) "_self")
  | _ => true
  end.

(** One round of the loop over the options: what it pushes onto [sb]. *)
Definition feature_of (e : Env) (opt_options : Obj) (option : string)
  : list string :=
  if String.eqb option "width" || String.eqb option "height"
     || String.eqb option "top" || String.eqb option "left"
  then [String.append option
          (String.append "=" (ToString e (get_prop option opt_options)))]
  else if String.eqb option "target" || String.eqb option "noopener"
          || String.eqb option "noreferrer"
  then []
  else [String.append option
          (String.append "="
             (if truthy (get_prop option opt_options) then "1" else "0"))].

(** [for (var option in opt_options) ...; sb.join(',')] *)
Definition optionString (e : Env) (opt_options : Obj) : string :=
  String.concat "," (flat_map (feature_of e opt_options) (map fst opt_options)).

Definition unsafe_url_message : string :=
  "Cannot use the noreferrer option on a page that sets a referrer-policy of `unsafe-url` in modern browsers!".

(** The double quote, as a one-character string. *)
Definition dquote : string := String (ascii_of_nat 34) EmptyString.

(** Concatenation of several strings, as a chain of [+]. *)
Definition cat (parts : list string) : string := String.concat "" parts.

(** The content of the blank window that redirects to the link. *)
Definition meta_refresh (e : Env) (sanitizedLinkRef : string) : string :=
  cat ["<meta name="; dquote; "referrer"; dquote; " content="; dquote;
       "no-referrer"; dquote; ">";
       "<meta http-equiv="; dquote; "refresh"; dquote; " content="; dquote;
       "0; url="; htmlEscape e sanitizedLinkRef; dquote; ">"].

Definition open (e : Env) (linkRef : LinkRef) (opt_options : option Obj)
  (opt_parentWin : option Win) : list Effect * Ended Opened :=
  let opt_options := match opt_options with Some o => o | None => [] end in
  let parentWin :=
    match opt_parentWin with Some w => w | None => window e end in
  let safeLinkRef : Ended SafeUrl :=
    match linkRef with
    | LinkSafeUrl u => Returns u
    | LinkString s => Returns (sanitize e (JS.Str s))
    | LinkObject href _ to_string =>
        Returns (sanitize e (if negb (is_undefined href) then href
                             else JS.Str to_string))
    | LinkNull => Throws JsTypeError
    end in
  match safeLinkRef with
  | Throws t => ([], Throws t)
  | Returns safeLinkRef =>
      let browserSupportsCoop :=
        ENFORCE_COOP e && negb (is_undefined (crossOriginIsolated e)) in
      let referrerPolicy :=
        match Request_referrerPolicy e with
        | Some policy => policy
        | None => "strict-origin-when-cross-origin"
        end in
      let pageSetsUnsafeReferrerPolicy :=
        String.eqb referrerPolicy "unsafe-url" in
      let noReferrerOption := get_prop "noreferrer" opt_options in
      if browserSupportsCoop && truthy noReferrerOption
         && pageSetsUnsafeReferrerPolicy
      then ([], Throws (JsError unsafe_url_message))
      else
        let noReferrerOption :=
          if browserSupportsCoop && truthy noReferrerOption
          then JS.Boolean false else noReferrerOption in
        let target :=
          or_else (get_prop "target" opt_options) (link_target linkRef) in
        let optionString := optionString e opt_options in
        if isIos e
           && match navigator parentWin with
              | Some nav => truthy (standalone nav)
              | None => false
              end
           && truthy target && differs_from_self e target
        then
          ([createElement_A; setAnchorHref safeLinkRef;
            setAttribute "target" target]
             ++ (if truthy noReferrerOption
                 then [setAttribute "rel" (JS.Str "noreferrer")] else [])
             ++ [dispatch_click parentWin],
           Returns createFakeWindow_)
        else if truthy noReferrerOption
        then
          let newWin := browser_opens e EmptyUrl parentWin target optionString in
          let sanitizedLinkRef := unwrap safeLinkRef in
          match newWin with
          | Some w =>
              let sanitizedLinkRef :=
                if EDGE_OR_IE e && contains_semicolon sanitizedLinkRef
                then String.append "'"
                       (String.append (replace_quotes sanitizedLinkRef) "'")
                else sanitizedLinkRef in
              let safeHtml := meta_refresh e sanitizedLinkRef in
              ([openInWindow EmptyUrl parentWin target optionString;
                set_opener_null]
                 ++ match document w with
                    | Some newDoc =>
                        if write newDoc
                        then [documentWrite safeHtml; document_close]
                        else []
                    | None => []
                    end,
               Returns (NewWindow w))
          | None =>
              ([openInWindow EmptyUrl parentWin target optionString],
               Returns NoWindow)
          end
        else
          let newWin :=
            browser_opens e (Url safeLinkRef) parentWin target optionString in
          match newWin with
          | Some w =>
              ([openInWindow (Url safeLinkRef) parentWin target optionString]
                 ++ (if truthy (get_prop "noopener" opt_options)
                     then [set_opener_null] else []),
               Returns (NewWindow w))
          | None =>
              ([openInWindow (Url safeLinkRef) parentWin target optionString],
               Returns NoWindow)
          end
  end.


(** [popup] changes the options object it is given; the object as it is left
    is returned along with the effects and the completion. *)
Definition popup (e : Env) (linkRef : LinkRef) (opt_options : option Obj)
  : Obj * list Effect * Ended bool :=
  let opt_options := match opt_options with Some o => o | None => [] end in
  let target : Ended JS.Value :=
    if truthy (get_prop "target" opt_options)
    then Returns (get_prop "target" opt_options)
    else
      match linkRef with
      | LinkNull => Throws JsTypeError
      | _ => Returns (or_else (link_target linkRef)
                        (JS.Str DEFAULT_POPUP_TARGET))
      end in
  match target with
  | Throws t => (opt_options, [], Throws t)
  | Returns target =>
      let opt_options := set_prop "target" target opt_options in
      let opt_options :=
        set_prop "width"
          (or_else (get_prop "width" opt_options)
             (JS.Number DEFAULT_POPUP_WIDTH)) opt_options in
      let opt_options :=
        set_prop "height"
          (or_else (get_prop "height" opt_options)
             (JS.Number DEFAULT_POPUP_HEIGHT)) opt_options in
      match open e linkRef (Some opt_options) None with
      | (effects, Throws t) => (opt_options, effects, Throws t)
      | (effects, Returns NoWindow) => (opt_options, effects, Returns true)
      | (effects, Returns FakeWindow) =>
          (* [{}.focus] is not a function *)
          (opt_options, effects, Throws JsTypeError)
      | (effects, Returns (NewWindow _)) =>
          (opt_options, effects ++ [focus], Returns false)
      end
  end.

Definition effects {A : Type} (r : list Effect * Ended A) : list Effect :=
  fst r.
Definition ended {A : Type} (r : list Effect * Ended A) : Ended A := snd r.

(** The three parts of what [popup] leaves behind. *)
Definition options_after {A : Type} (r : Obj * list Effect * Ended A) : Obj :=
  fst (fst r).
Definition effects_of {A : Type} (r : Obj * list Effect * Ended A)
  : list Effect := snd (fst r).
Definition ended_of {A : Type} (r : Obj * list Effect * Ended A) : Ended A :=
  snd r.

(** The window [open] works from: [opt_parentWin || window]. *)
Definition parent_of (e : Env) (opt_parentWin : option Win) : Win :=
  match opt_parentWin with Some w => w | None => window e end.

(** The options [open] works on: the given ones, or [{}]. *)
Definition options_of (opt_options : option Obj) : Obj :=
  match opt_options with Some o => o | None => [] end.

(** The target [open] passes on: [opt_options.target || linkRef.target]. *)
Definition target_of (linkRef : LinkRef) (opt_options : option Obj)
  : JS.Value :=
  or_else (get_prop "target" (options_of opt_options)) (link_target linkRef).

(** The target [popup] settles on:
    [opt_options['target'] || linkRef['target'] || DEFAULT_POPUP_TARGET]. *)
Definition popup_target (linkRef : LinkRef) (o : Obj) : JS.Value :=
  or_else (get_prop "target" o)
    (or_else (link_target linkRef) (JS.Str DEFAULT_POPUP_TARGET)).


Definition is_openInWindow (x : Effect) : bool :=
  match x with openInWindow _ _ _ _ => true | _ => false end.


(** The browser is asked to open the empty URL. *)
Definition opens_empty_url (x : Effect) : bool :=
  match x with openInWindow EmptyUrl _ _ _ => true | _ => false end.

(** The options [open] reads by name and keeps out of the feature string. *)
Definition is_control (option : string) : bool :=
  String.eqb option "target" || String.eqb option "noopener"
  || String.eqb option "noreferrer".

(** [browserSupportsCoop] *)
Definition supports_coop (e : Env) : bool :=
  ENFORCE_COOP e && negb (is_undefined (crossOriginIsolated e)).

(** [pageSetsUnsafeReferrerPolicy] *)
Definition unsafe_referrer_policy (e : Env) : bool :=
  match Request_referrerPolicy e with
  | Some policy => String.eqb policy "unsafe-url"
  | None => false
  end.

(** The condition on which [open] raises its own error. *)
Definition refuses (e : Env) (o : Obj) : bool :=
  supports_coop e && truthy (get_prop "noreferrer" o)
  && unsafe_referrer_policy e.

(** The condition of the iOS branch. *)
Definition ios_standalone (e : Env) (parentWin : Win) : bool :=
  isIos e
  && match navigator parentWin with
     | Some nav => truthy (standalone nav)
     | None => false
     end.

End Window.

(** ** Sample browsers *)

Definition main_window : Window.Win :=
  {| Window.name := "main"; Window.navigator := None |}.

Definition sample_ToString (v : JS.Value) : string :=
  match v with
  | JS.Undefined => "undefined"
  | JS.Null => "null"
  | JS.Boolean true => "true"
  | JS.Boolean false => "false"
  | JS.Number 0 => "0"
  | JS.Number 500 => "500"
  | JS.Number 690 => "690"
  | JS.Number _ => "n"
  | JS.Str s => s
  | JS.Object tag => tag
  end.

Definition sample_popup : Window.Popup :=
  {| Window.document := Some {| Window.write := true |} |}.

(** A desktop browser; [coop] says whether it knows cross-origin isolation,
    [policy] is the page's referrer policy, [blocked] whether a popup blocker
    is active. *)
Definition desktop (coop : bool) (policy : string) (blocked : bool)
  : Window.Env :=
  {| Window.ENFORCE_COOP := true;
     Window.crossOriginIsolated :=
       if coop then JS.Boolean false else JS.Undefined;
     Window.Request_referrerPolicy := Some policy;
     Window.isIos := false;
     Window.EDGE_OR_IE := false;
     Window.window := main_window;
     Window.browser_opens :=
       fun _ _ _ _ => if blocked then None else Some sample_popup;
     Window.ToString := sample_ToString;
     Window.sanitize := fun v => {| Window.wrapped := sample_ToString v |};
     Window.htmlEscape := fun s => s;
     Window.escapeString := fun s => s;
     Window.encodeURI := fun s => s |}.

(** A web application on iOS, added to the home screen. *)
Definition ios_web_app : Window.Env :=
  {| Window.ENFORCE_COOP := true;
     Window.crossOriginIsolated := JS.Undefined;
     Window.Request_referrerPolicy := None;
     Window.isIos := true;
     Window.EDGE_OR_IE := false;
     Window.window :=
       {| Window.name := "main";
          Window.navigator :=
            Some {| Window.standalone := JS.Boolean true |} |};
     Window.browser_opens := fun _ _ _ _ => Some sample_popup;
     Window.ToString := sample_ToString;
     Window.sanitize := fun v => {| Window.wrapped := sample_ToString v |};
     Window.htmlEscape := fun s => s;
     Window.escapeString := fun s => s;
     Window.encodeURI := fun s => s |}.

Definition sample_options : Window.Obj :=
  [("width", JS.Number 500); ("noreferrer", JS.Boolean true);
   ("toolbar", JS.Boolean false); ("target", JS.Str "help")].

(** Case analysis along the branches of a function body. *)
Ltac branch :=
  match goal with
  | |- context [if ?b then _ else _] => destruct b eqn:?
  | |- context [match ?x with _ => _ end] => destruct x eqn:?
  end.

Ltac branches := repeat (branch; cbn [fst snd Window.effects Window.ended] in *).

(** Unfolds a method call down to the host's entries. *)
Ltac run_method :=
  unfold new_HTML5WebStorage, this_storage_, zoom, Host.deref, bind,
    try_catch, Host.setItem, Host.getItem, Host.removeItem, Host.clear,
    Host.length, Host.logged, Host.with_items, ret, throw, result,
    state_after;
  cbn.

(** * Properties *)

(** ** The host's entries *)

Module HostFacts.
Import Host.

Lemma assoc_put_same (k : string) (v : JS.Value) (l : Items) :
  assoc k (put k v l) = Some v.
Proof.
  induction l as [|[k' v'] rest IH]; simpl.
  - now rewrite String.eqb_refl.
  - destruct (String.eqb k' k) eqn:E; simpl.
    + now rewrite String.eqb_refl.
    + now rewrite E.
Qed.

Lemma assoc_put_other (k k0 : string) (v : JS.Value) (l : Items) :
  k0 <> k -> assoc k0 (put k v l) = assoc k0 l.
Proof.
  intros Hne.
  assert (Hk : String.eqb k k0 = false)
    by (apply String.eqb_neq; congruence).
  induction l as [|[k' v'] rest IH]; simpl.
  - now rewrite Hk.
  - destruct (String.eqb k' k) eqn:E; simpl.
    + apply String.eqb_eq in E; subst k'. now rewrite Hk.
    + now rewrite IH.
Qed.

Lemma assoc_drop_same (k : string) (l : Items) :
  assoc k (drop k l) = None.
Proof.
  induction l as [|[k' v'] rest IH]; simpl; [reflexivity|].
  destruct (String.eqb k' k) eqn:E; simpl; [assumption|].
  now rewrite E.
Qed.

Lemma assoc_drop_other (k k0 : string) (l : Items) :
  k0 <> k -> assoc k0 (drop k l) = assoc k0 l.
Proof.
  intros Hne.
  induction l as [|[k' v'] rest IH]; simpl; [reflexivity|].
  destruct (String.eqb k' k) eqn:E; simpl.
  - apply String.eqb_eq in E; subst k'.
    assert (String.eqb k k0 = false) as ->
      by (apply String.eqb_neq; congruence).
    assumption.
  - now rewrite IH.
Qed.

Lemma assoc_In (k : string) (v : JS.Value) (l : Items) :
  assoc k l = Some v -> In (k, v) l.
Proof.
  induction l as [|[k' v'] rest IH]; simpl; [discriminate|].
  destruct (String.eqb k' k) eqn:E.
  - apply String.eqb_eq in E; subst k'.
    intros [= ->]. now left.
  - intros H. right. now apply IH.
Qed.

Lemma In_assoc (k : string) (v : JS.Value) (l : Items) :
  wf l -> In (k, v) l -> assoc k l = Some v.
Proof.
  unfold wf.
  induction l as [|[k' v'] rest IH]; simpl; [contradiction|].
  intros Hnd [Heq | Hin].
  - injection Heq as -> ->. now rewrite String.eqb_refl.
  - inversion Hnd as [|? ? Hnotin Hnd']; subst.
    destruct (String.eqb k' k) eqn:E.
    + apply String.eqb_eq in E; subst k'.
      exfalso. apply Hnotin.
      change k with (fst (k, v)). now apply in_map.
    + now apply IH.
Qed.

Lemma keys_put (k : string) (v : JS.Value) (l : Items) (k0 : string) :
  In k0 (map fst (put k v l)) -> k0 = k \/ In k0 (map fst l).
Proof.
  induction l as [|[k' v'] rest IH]; simpl.
  - intros [<- | []]. now left.
  - destruct (String.eqb k' k) eqn:E; simpl.
    + apply String.eqb_eq in E; subst k'. tauto.
    + intros [<- | H]; [tauto|]. apply IH in H. tauto.
Qed.

(** The host's operations keep the entries well formed. *)
Lemma wf_put (k : string) (v : JS.Value) (l : Items) :
  wf l -> wf (put k v l).
Proof.
  unfold wf.
  induction l as [|[k' v'] rest IH]; simpl; intros Hnd.
  - constructor; [intros []|constructor].
  - inversion Hnd as [|? ? Hnotin Hnd']; subst.
    destruct (String.eqb k' k) eqn:E; simpl.
    + apply String.eqb_eq in E; subst k'. now constructor.
    + constructor; [|now apply IH].
      intros H. apply keys_put in H. destruct H as [-> | H].
      * now rewrite String.eqb_refl in E.
      * contradiction.
Qed.

Lemma wf_drop (k : string) (l : Items) : wf l -> wf (drop k l).
Proof.
  unfold wf, drop.
  induction l as [|[k' v'] rest IH]; simpl; intros Hnd; [constructor|].
  inversion Hnd as [|? ? Hnotin Hnd']; subst.
  destruct (String.eqb k' k); simpl; [now apply IH|].
  constructor; [|now apply IH].
  intros H. apply Hnotin.
  apply in_map_iff in H. destruct H as [[k1 v1] [Hk Hin]].
  apply filter_In in Hin. destruct Hin as [Hin _].
  simpl in Hk; subst k1.
  change k' with (fst (k', v1)). now apply in_map.
Qed.

Lemma all_strings_In (l : Items) (k : string) (v : JS.Value) :
  all_strings l = true -> In (k, v) l ->
  String.eqb (JS.typeof v) "string" = true.
Proof.
  unfold all_strings. rewrite forallb_forall.
  intros H Hin. exact (H (k, v) Hin).
Qed.

(** Every call on the host keeps its entries well formed. *)
Lemma host_keeps_wf (s : Storage) (k v : string) (n : nat) :
  wf (items s) ->
  wf (items (state_after (setItem k v s)))
  /\ wf (items (state_after (getItem k s)))
  /\ wf (items (state_after (removeItem k s)))
  /\ wf (items (state_after (Host.clear s)))
  /\ wf (items (state_after (Host.length s)))
  /\ wf (items (state_after (Host.key n s))).
Proof.
  intros Hwf. unfold setItem, state_after. cbn.
  destruct (write_fault s (items s) k v); cbn.
  - repeat split; try assumption; [now apply wf_drop|constructor].
  - repeat split; try assumption;
      [now apply wf_put|now apply wf_drop|constructor].
Qed.

End HostFacts.

(** ** One step of the iterator *)

Module NextFacts.
Import Host.

Lemma next_done (ko : bool) (n : nat) (l : Items) p (j : list Call) :
  List.length l <= n ->
  newIter.next (iterator_at ko n (mkStorage l p j))
  = (Normal ES6_ITERATOR_DONE,
     iterator_at ko n (mkStorage l p (j ++ [call_length]))).
Proof.
  intros Hn. unfold newIter.next, bind, read, newIter.storage_call, zoom.
  cbn. apply Nat.leb_le in Hn. now rewrite Hn.
Qed.

Lemma next_keys (n : nat) (l : Items) p (j : list Call) k v :
  nth_error l n = Some (k, v) ->
  newIter.next (iterator_at true n (mkStorage l p j))
  = (Normal (createEs6IteratorYield (JS.Str k)),
     iterator_at true (S n) (mkStorage l p (j ++ calls_of_next true n k))).
Proof.
  intros Hnth.
  assert (Hlt : Nat.leb (List.length l) n = false).
  { apply Nat.leb_gt. apply nth_error_Some. now rewrite Hnth. }
  unfold newIter.next, bind, read, newIter.storage_call, zoom.
  cbn. rewrite Hlt. cbn. unfold key_at. rewrite Hnth.
  unfold ret, logged, iterator_at, calls_of_next. cbn.
  now rewrite <- app_assoc.
Qed.

Lemma next_values (n : nat) (l : Items) p (j : list Call) k v :
  nth_error l n = Some (k, v) ->
  newIter.next (iterator_at false n (mkStorage l p j))
  = (if String.eqb (JS.typeof (value_of k l)) "string"
     then Normal (createEs6IteratorYield (value_of k l))
     else Throw (Code INVALID_VALUE),
     iterator_at false (S n) (mkStorage l p (j ++ calls_of_next false n k))).
Proof.
  intros Hnth.
  assert (Hlt : Nat.leb (List.length l) n = false).
  { apply Nat.leb_gt. apply nth_error_Some. now rewrite Hnth. }
  unfold newIter.next, bind, read, newIter.storage_call, zoom.
  cbn. rewrite Hlt. cbn. unfold key_at. rewrite Hnth.
  unfold logged, iterator_at, calls_of_next. cbn.
  rewrite <- !app_assoc. cbn.
  destruct (String.eqb (JS.typeof (value_of k l)) "string");
    unfold logged; cbn; now rewrite <- app_assoc.
Qed.

End NextFacts.

(** ** Traversals *)

Module TraverseFacts.
Import Host HostFacts NextFacts.

Lemma nth_error_middle (seen rest : Items) (e : string * JS.Value) :
  nth_error (seen ++ e :: rest) (List.length seen) = Some e.
Proof.
  rewrite nth_error_app2 by lia. now rewrite Nat.sub_diag.
Qed.

Lemma snoc_shift (seen rest : Items) (e : string * JS.Value) :
  seen ++ e :: rest = (seen ++ [e]) ++ rest.
Proof. now rewrite <- app_assoc. Qed.

Lemma length_snoc (seen : Items) (e : string * JS.Value) :
  List.length (seen ++ [e]) = S (List.length seen).
Proof. rewrite length_app. simpl. lia. Qed.

(** The keys-only traversal from any position: it yields the keys of the
    remaining entries in order, finishes, and calls only [length] and
    [key]. *)
Lemma traverse_keys (rest : Items) :
  forall (seen : Items) p (j : list Call) (fuel : nat),
    List.length rest < fuel ->
    exists j',
      traverse fuel
        (iterator_at true (List.length seen) (mkStorage (seen ++ rest) p j))
      = (map (fun e => JS.Str (fst e)) rest, Finished,
         iterator_at true (List.length (seen ++ rest))
           (mkStorage (seen ++ rest) p (j ++ j')))
      /\ forallb not_getItem j' = true.
Proof.
  induction rest as [|[k v] rest IH]; intros seen p j fuel Hfuel.
  - destruct fuel as [|fuel]; [simpl in Hfuel; lia|].
    exists [call_length]. split; [|reflexivity].
    simpl traverse. rewrite next_done by (rewrite length_app; simpl; lia).
    simpl. now rewrite app_nil_r.
  - destruct fuel as [|fuel]; [simpl in Hfuel; lia|].
    simpl in Hfuel.
    destruct (IH (seen ++ [(k, v)]) p
                (j ++ calls_of_next true (List.length seen) k) fuel)
      as [j' [Hrun Hj']]; [lia|].
    exists (calls_of_next true (List.length seen) k ++ j').
    split; [|exact Hj'].
    simpl traverse.
    rewrite (next_keys _ _ _ _ k v) by apply nth_error_middle.
    simpl done. cbv iota.
    rewrite length_snoc, <- snoc_shift in Hrun.
    rewrite Hrun. simpl. now rewrite <- app_assoc.
Qed.

(** The value traversal over entries whose looked-up values are all
    strings. *)
Lemma traverse_values_ok (rest : Items) :
  forall (seen : Items) p (j : list Call) (fuel : nat),
    List.length rest < fuel ->
    forallb (fun e => is_string (seen_value (seen ++ rest) e)) rest = true ->
    exists j',
      traverse fuel
        (iterator_at false (List.length seen) (mkStorage (seen ++ rest) p j))
      = (map (seen_value (seen ++ rest)) rest, Finished,
         iterator_at false (List.length (seen ++ rest))
           (mkStorage (seen ++ rest) p (j ++ j'))).
Proof.
  induction rest as [|[k v] rest IH]; intros seen p j fuel Hfuel Hstr.
  - destruct fuel as [|fuel]; [simpl in Hfuel; lia|].
    exists [call_length].
    simpl traverse. rewrite next_done by (rewrite length_app; simpl; lia).
    simpl. now rewrite app_nil_r.
  - destruct fuel as [|fuel]; [simpl in Hfuel; lia|].
    simpl in Hfuel. simpl in Hstr. apply andb_prop in Hstr.
    destruct Hstr as [Hk Hrest].
    rewrite snoc_shift in Hrest.
    destruct (IH (seen ++ [(k, v)]) p
                (j ++ calls_of_next false (List.length seen) k) fuel)
      as [j' Hrun]; [lia|exact Hrest|].
    exists (calls_of_next false (List.length seen) k ++ j').
    simpl traverse.
    rewrite (next_values _ _ _ _ k v) by apply nth_error_middle.
    unfold is_string, seen_value in Hk. simpl fst in Hk. rewrite Hk.
    simpl done. cbv iota.
    rewrite length_snoc, <- snoc_shift in Hrun.
    rewrite Hrun. simpl. now rewrite <- app_assoc.
Qed.

(** The value traversal up to the first entry whose looked-up value is not
    a string. *)
Lemma traverse_values_bad (pre : Items) :
  forall (seen post : Items) k v p (j : list Call) (fuel : nat),
    List.length pre < fuel ->
    forallb (fun e => is_string (seen_value (seen ++ pre ++ (k, v) :: post) e))
      pre = true ->
    is_string (value_of k (seen ++ pre ++ (k, v) :: post)) = false ->
    exists j',
      traverse fuel
        (iterator_at false (List.length seen)
           (mkStorage (seen ++ pre ++ (k, v) :: post) p j))
      = (map (seen_value (seen ++ pre ++ (k, v) :: post)) pre,
         Aborted (Code INVALID_VALUE),
         iterator_at false (S (List.length (seen ++ pre)))
           (mkStorage (seen ++ pre ++ (k, v) :: post) p (j ++ j'))).
Proof.
  induction pre as [|[k0 v0] pre IH];
    intros seen post k v p j fuel Hfuel Hstr Hbad.
  - destruct fuel as [|fuel]; [simpl in Hfuel; lia|].
    exists (calls_of_next false (List.length seen) k).
    simpl traverse. simpl app.
    rewrite (next_values _ _ _ _ k v) by apply nth_error_middle.
    unfold is_string in Hbad. simpl app in Hbad. rewrite Hbad.
    now rewrite app_nil_r.
  - destruct fuel as [|fuel]; [simpl in Hfuel; lia|].
    simpl in Hfuel. simpl in Hstr. apply andb_prop in Hstr.
    destruct Hstr as [Hk Hrest].
    simpl app in Hbad.
    rewrite snoc_shift in Hrest, Hbad.
    destruct (IH (seen ++ [(k0, v0)]) post k v p
                (j ++ calls_of_next false (List.length seen) k0) fuel)
      as [j' Hrun]; [lia|exact Hrest|exact Hbad|].
    exists (calls_of_next false (List.length seen) k0 ++ j').
    simpl traverse. simpl app.
    rewrite (next_values _ _ _ _ k0 v0) by apply nth_error_middle.
    unfold is_string, seen_value in Hk. simpl fst in Hk. rewrite Hk.
    simpl done. cbv iota.
    rewrite length_snoc, <- !snoc_shift in Hrun.
    rewrite Hrun. simpl.
    repeat rewrite <- app_assoc. reflexivity.
Qed.

Lemma In_key_assoc (k : string) (v : JS.Value) (l : Items) :
  In (k, v) l -> exists v', assoc k l = Some v'.
Proof.
  induction l as [|[k' v'] rest IH]; simpl; [contradiction|].
  intros [Heq | Hin].
  - injection Heq as -> ->. rewrite String.eqb_refl. now exists v.
  - destruct (String.eqb k' k); [now exists v'|now apply IH].
Qed.

(** With at most one entry per key, looking an entry's key up gives the
    entry's own value. *)
Lemma seen_value_wf (l : Items) (e : string * JS.Value) :
  wf l -> In e l -> seen_value l e = snd e.
Proof.
  intros Hwf Hin. destruct e as [k v].
  unfold seen_value, value_of. simpl.
  now rewrite (In_assoc k v l Hwf Hin).
Qed.

(** When every stored value is a string, every looked-up value is. *)
Lemma seen_all_strings (l : Items) (e : string * JS.Value) :
  all_strings l = true -> In e l -> is_string (seen_value l e) = true.
Proof.
  intros Hall Hin. destruct e as [k v].
  destruct (In_key_assoc k v l Hin) as [v' Hv'].
  unfold seen_value, value_of. simpl. rewrite Hv'.
  exact (all_strings_In l k v' Hall (assoc_In k v' l Hv')).
Qed.

(** Entries that are not all strings split at the first one that is not. *)
Lemma first_non_string (l : Items) :
  all_strings l = false ->
  exists pre k v post,
    l = pre ++ (k, v) :: post
    /\ all_strings pre = true /\ is_string v = false.
Proof.
  induction l as [|[k v] rest IH]; simpl; [discriminate|].
  destruct (String.eqb (JS.typeof v) "string") eqn:Hv; simpl.
  - intros H. destruct (IH H) as [pre [k1 [v1 [post [-> [Hpre Hbad]]]]]].
    exists ((k, v) :: pre), k1, v1, post. simpl. rewrite Hv.
    repeat split; assumption.
  - intros _. exists [], k, v, rest. repeat split. exact Hv.
Qed.

Lemma run_iterator (keys_only : bool) (s : Storage) :
  __iterator__ keys_only (new_HTML5WebStorage (Some s))
  = (Normal (iterator_at keys_only 0 s), new_HTML5WebStorage (Some s)).
Proof. reflexivity. Qed.

(** The value traversal of a whole well-formed backend whose values are
    all strings. *)
Lemma traverse_all_values (l : Items) p (j : list Call) (fuel : nat) :
  List.length l < fuel ->
  all_strings l = true ->
  exists j',
    traverse fuel (iterator_at false 0 (mkStorage l p j))
    = (map (seen_value l) l, Finished,
       iterator_at false (List.length l) (mkStorage l p (j ++ j'))).
Proof.
  intros Hfuel Hall.
  apply (traverse_values_ok l [] p j fuel Hfuel).
  apply forallb_forall. intros e He. now apply seen_all_strings.
Qed.

(** The value traversal of a well-formed backend up to its first
    non-string value. *)
Lemma traverse_to_first_non_string
  (pre post : Items) k v p (j : list Call) (fuel : nat) :
  wf (pre ++ (k, v) :: post) ->
  List.length (pre ++ (k, v) :: post) < fuel ->
  all_strings pre = true ->
  is_string v = false ->
  exists j',
    traverse fuel (iterator_at false 0 (mkStorage (pre ++ (k, v) :: post) p j))
    = (map snd pre, Aborted (Code INVALID_VALUE),
       iterator_at false (S (List.length pre))
         (mkStorage (pre ++ (k, v) :: post) p (j ++ j'))).
Proof.
  intros Hwf Hfuel Hpre Hbad.
  assert (Hin : forall e, In e pre -> In e (pre ++ (k, v) :: post))
    by (intros e He; apply in_or_app; now left).
  destruct (traverse_values_bad pre [] post k v p j fuel) as [j' Hrun].
  - rewrite length_app in Hfuel. lia.
  - apply forallb_forall. intros e He. simpl app.
    rewrite (seen_value_wf _ e Hwf (Hin e He)).
    destruct e as [k0 v0]. exact (all_strings_In pre k0 v0 Hpre He).
  - simpl app.
    change (value_of k (pre ++ (k, v) :: post))
      with (seen_value (pre ++ (k, v) :: post) (k, v)).
    rewrite seen_value_wf; [exact Hbad|exact Hwf|].
    apply in_or_app. right. now left.
  - exists j'. simpl in Hrun. rewrite Hrun. f_equal. f_equal.
    apply map_ext_in. intros e He. apply seen_value_wf; auto.
Qed.

End TraverseFacts.

(** ** set, get, remove, clear, getCount *)

Module MechanismFacts.
Import Host HostFacts.

Lemma run_set (s : Storage) (k v : string) :
  set k v (new_HTML5WebStorage (Some s))
  = match write_fault s (items s) k v with
    | None =>
        (Normal tt,
         new_HTML5WebStorage
           (Some (mkStorage (put k (JS.Str v) (items s)) (write_fault s)
                    (journal s ++ [call_setItem k v]))))
    | Some _ =>
        (Throw (Code (if Nat.eqb (List.length (items s)) 0
                      then STORAGE_DISABLED else QUOTA_EXCEEDED)),
         new_HTML5WebStorage
           (Some (mkStorage (items s) (write_fault s)
                    ((journal s ++ [call_setItem k v]) ++ [call_length]))))
    end.
Proof.
  unfold set. run_method.
  destruct (write_fault s (items s) k v); cbn; [|reflexivity].
  now destruct (List.length (items s)).
Qed.

Lemma run_get (s : Storage) (k : string) :
  get k (new_HTML5WebStorage (Some s))
  = (if negb (is_string (value_of k (items s)))
        && negb (JS.is_null (value_of k (items s)))
     then Throw (Code INVALID_VALUE)
     else Normal (value_of k (items s)),
     new_HTML5WebStorage
       (Some (mkStorage (items s) (write_fault s)
                (journal s ++ [call_getItem k])))).
Proof.
  unfold get, is_string. run_method.
  now destruct (negb (String.eqb (JS.typeof (value_of k (items s))) "string")
                && negb (JS.is_null (value_of k (items s)))).
Qed.

Lemma run_remove (s : Storage) (k : string) :
  remove k (new_HTML5WebStorage (Some s))
  = (Normal tt,
     new_HTML5WebStorage
       (Some (mkStorage (drop k (items s)) (write_fault s)
                (journal s ++ [call_removeItem k])))).
Proof. reflexivity. Qed.

Lemma run_isAvailable (s : Storage) :
  isAvailable (new_HTML5WebStorage (Some s))
  = match write_fault s (items s) STORAGE_AVAILABLE_KEY_ "1" with
    | None =>
        (Normal true,
         new_HTML5WebStorage
           (Some (mkStorage
                    (drop STORAGE_AVAILABLE_KEY_
                       (put STORAGE_AVAILABLE_KEY_ (JS.Str "1") (items s)))
                    (write_fault s)
                    ((journal s ++ [call_setItem STORAGE_AVAILABLE_KEY_ "1"])
                       ++ [call_removeItem STORAGE_AVAILABLE_KEY_]))))
    | Some _ =>
        (Normal false,
         new_HTML5WebStorage
           (Some (mkStorage (items s) (write_fault s)
                    (journal s ++ [call_setItem STORAGE_AVAILABLE_KEY_ "1"]))))
    end.
Proof.
  unfold isAvailable, read. run_method.
  now destruct (write_fault s (items s) STORAGE_AVAILABLE_KEY_ "1").
Qed.

Lemma run_isAvailable_null :
  isAvailable (new_HTML5WebStorage None)
  = (Normal false, new_HTML5WebStorage None).
Proof. reflexivity. Qed.

Lemma run_probe (s : Storage) :
  result ((this_storage_ (setItem STORAGE_AVAILABLE_KEY_ "1") ;;
           this_storage_ (removeItem STORAGE_AVAILABLE_KEY_))
            (new_HTML5WebStorage (Some s)))
  = match write_fault s (items s) STORAGE_AVAILABLE_KEY_ "1" with
    | None => Normal tt
    | Some e => Throw e
    end.
Proof.
  run_method.
  now destruct (write_fault s (items s) STORAGE_AVAILABLE_KEY_ "1").
Qed.

End MechanismFacts.

Import HostFacts MechanismFacts NextFacts TraverseFacts.

(** C1.  For every string key [k] and string value [v]: when the host accepts
    the write, [set(k, v)] followed by [get(k)] on the same mechanism returns
    exactly [v]. *)
Theorem set_then_get (s : Host.Storage) (k v : string) :
  result (this_storage_ (Host.setItem k v) (new_HTML5WebStorage (Some s)))
  = Normal tt ->
  result ((set k v ;; get k) (new_HTML5WebStorage (Some s)))
  = Normal (JS.Str v).
Proof.
  intros Hwrite.
  assert (Hok : Host.write_fault s (Host.items s) k v = None).
  { revert Hwrite. run_method.
    now destruct (Host.write_fault s (Host.items s) k v). }
  unfold bind. rewrite (run_set s k v), Hok. cbv beta iota.
  rewrite (run_get _ k). cbn.
  unfold Host.value_of. now rewrite assoc_put_same.
Qed.

Lemma set_then_get_witness :
  result ((set "user" "alice" ;; get "user") (mechanism sample_items (capacity 5)))
  = Normal (JS.Str "alice").
Proof.
  apply (set_then_get (Host.mkStorage sample_items (capacity 5) []) "user" "alice").
  reflexivity.
Defined.

(** C2.  When the write performed by [set] throws, [set] raises
    StorageDisabled if the backend holds no entry at that moment and
    QuotaExceeded if it holds some; when the write does not throw, [set]
    raises nothing. *)
Theorem set_failure_modes (s : Host.Storage) (k v : string) :
  let this := new_HTML5WebStorage (Some s) in
  let write := this_storage_ (Host.setItem k v) this in
  (forall e, result write = Throw e ->
             List.length (entries (state_after write)) = 0 ->
             result (set k v this) = Throw (Code STORAGE_DISABLED))
  /\ (forall e, result write = Throw e ->
                List.length (entries (state_after write)) <> 0 ->
                result (set k v this) = Throw (Code QUOTA_EXCEEDED))
  /\ (forall u, result write = Normal u ->
                result (set k v this) = Normal tt).
Proof.
  intros this write. unfold this. rewrite (run_set s k v).
  unfold write, this. run_method. unfold entries. cbn.
  destruct (Host.write_fault s (Host.items s) k v) as [e0|]; cbn.
  - repeat split.
    + intros e _ Hlen. now rewrite Hlen.
    + intros e _ Hlen.
      destruct (List.length (Host.items s)); [contradiction|reflexivity].
    + intros u Hu. discriminate Hu.
  - repeat split; intros e He; discriminate He.
Qed.

Lemma set_failure_modes_witness :
  result (set "k" "v" (mechanism [] private_mode))
  = Throw (Code STORAGE_DISABLED)
  /\ result (set "k" "v" (mechanism sample_items private_mode))
     = Throw (Code QUOTA_EXCEEDED)
  /\ result (set "k" "v" (mechanism sample_items accept_all)) = Normal tt.
Proof.
  split; [|split].
  - apply (proj1 (set_failure_modes (Host.mkStorage [] private_mode []) "k" "v")
             (DOMException "QuotaExceededError")); reflexivity.
  - apply (proj1 (proj2 (set_failure_modes
                           (Host.mkStorage sample_items private_mode []) "k" "v"))
             (DOMException "QuotaExceededError")); [reflexivity|].
    simpl. discriminate.
  - apply (proj2 (proj2 (set_failure_modes
                           (Host.mkStorage sample_items accept_all []) "k" "v"))
             tt); reflexivity.
Defined.

(** C3.  [get(k)] returns the string stored under [k]; returns [null] when
    there is no entry for [k]; raises InvalidValue exactly when the
    underlying value is neither a string nor [null]; and whatever it returns
    is the underlying value itself, never a coerced one. *)
Theorem get_contract (s : Host.Storage) (k : string) :
  let this := new_HTML5WebStorage (Some s) in
  (forall x, entry k this = Some (JS.Str x) ->
             result (get k this) = Normal (JS.Str x))
  /\ (entry k this = None -> result (get k this) = Normal JS.Null)
  /\ (result (get k this) = Throw (Code INVALID_VALUE) <->
      exists v, entry k this = Some v
                /\ is_string v = false /\ JS.is_null v = false)
  /\ (forall r, result (get k this) = Normal r ->
                r = Host.value_of k (entries this))
  /\ (forall e, result (get k this) = Throw e -> e = Code INVALID_VALUE).
Proof.
  intros this. unfold this. rewrite (run_get s k).
  unfold entry, entries, Host.value_of, result. cbn.
  destruct (Host.assoc k (Host.items s)) as [v|] eqn:Hv.
  - repeat split.
    + intros x [= ->]. reflexivity.
    + discriminate.
    + intros H. exists v. split; [reflexivity|].
      destruct (is_string v), (JS.is_null v); cbn in H;
        try discriminate H; now split.
    + intros [v' [[= <-] [Hs Hn]]]. rewrite Hs, Hn. reflexivity.
    + intros r.
      destruct (negb (is_string v) && negb (JS.is_null v)); cbn; congruence.
    + intros e.
      destruct (negb (is_string v) && negb (JS.is_null v)); cbn; congruence.
  - repeat split; cbn; try congruence.
    intros [v' [H _]]. discriminate H.
Qed.

Lemma get_contract_witness :
  result (get "a" (mechanism sample_items accept_all)) = Normal (JS.Str "1")
  /\ result (get "zz" (mechanism sample_items accept_all)) = Normal JS.Null
  /\ result (get "c" (mechanism sample_items accept_all))
     = Throw (Code INVALID_VALUE).
Proof.
  split; [|split].
  - apply (proj1 (get_contract (Host.mkStorage sample_items accept_all []) "a")).
    reflexivity.
  - apply (proj1 (proj2 (get_contract
                           (Host.mkStorage sample_items accept_all []) "zz"))).
    reflexivity.
  - apply (proj1 (proj2 (proj2 (get_contract
                                  (Host.mkStorage sample_items accept_all []) "c")))).
    exists (JS.Number 3). repeat split.
Defined.

(** C7.  [remove(k)] raises nothing, whether or not an entry for [k] exists,
    and a [get(k)] that follows returns [null]. *)
Theorem remove_then_get (s : Host.Storage) (k : string) :
  result (remove k (new_HTML5WebStorage (Some s))) = Normal tt
  /\ result ((remove k ;; get k) (new_HTML5WebStorage (Some s)))
     = Normal JS.Null.
Proof.
  split; [reflexivity|].
  unfold bind. rewrite (run_remove s k). cbv beta iota.
  rewrite (run_get _ k). cbn. unfold Host.value_of. now rewrite assoc_drop_same.
Qed.

(** C8.  [clear()] followed by [getCount()] returns 0. *)
Theorem clear_then_getCount (s : Host.Storage) :
  result ((clear ;; getCount) (new_HTML5WebStorage (Some s))) = Normal 0.
Proof. reflexivity. Qed.

(** ** isAvailable *)

(** C6.  [isAvailable()] never raises; it returns [true] exactly when the
    storage handle exists and writing the sentinel key and then removing it
    completes without a thrown error, and [false] when the handle is absent
    or the probe throws. *)
Theorem isAvailable_probe (this : HTML5WebStorage) :
  let probe :=
    (this_storage_ (Host.setItem STORAGE_AVAILABLE_KEY_ "1") ;;
     this_storage_ (Host.removeItem STORAGE_AVAILABLE_KEY_)) in
  exists b : bool,
    result (isAvailable this) = Normal b
    /\ (b = true <->
        JS.truthy_ref (storage_ this) = true
        /\ result (probe this) = Normal tt)
    /\ (storage_ this = None -> b = false)
    /\ (forall e, result (probe this) = Throw e -> b = false).
Proof.
  intros probe. destruct this as [[s|]].
  - change {| storage_ := Some s |} with (new_HTML5WebStorage (Some s)).
    unfold probe. rewrite run_isAvailable, run_probe.
    destruct (Host.write_fault s (Host.items s) STORAGE_AVAILABLE_KEY_ "1")
      as [e0|].
    + exists false. cbn.
      split; [reflexivity|]. split; [|split; [discriminate|reflexivity]].
      split; [discriminate|]. intros [_ H]. discriminate H.
    + exists true. cbn.
      split; [reflexivity|]. split; [|split; discriminate].
      split; [now split|reflexivity].
  - exists false. cbn.
    split; [reflexivity|]. split; [|split; reflexivity].
    split; [discriminate|]. intros [H _]. discriminate H.
Qed.

(** C9.  Whatever the backend state, [isAvailable()] leaves the mapping of
    every key other than the sentinel key unchanged, and after a probe that
    returns [true] there is no entry under the sentinel key. *)
Theorem isAvailable_frame (this : HTML5WebStorage) (k : string) :
  k <> STORAGE_AVAILABLE_KEY_ ->
  entry k (state_after (isAvailable this)) = entry k this
  /\ (result (isAvailable this) = Normal true ->
      entry STORAGE_AVAILABLE_KEY_ (state_after (isAvailable this)) = None).
Proof.
  intros Hk. destruct this as [[s|]].
  - change {| storage_ := Some s |} with (new_HTML5WebStorage (Some s)).
    rewrite run_isAvailable.
    destruct (Host.write_fault s (Host.items s) STORAGE_AVAILABLE_KEY_ "1")
      as [e0|]; unfold entry, entries; cbn.
    + split; [reflexivity|discriminate].
    + split.
      * rewrite assoc_drop_other by exact Hk.
        now rewrite assoc_put_other by exact Hk.
      * intros _. apply assoc_drop_same.
  - cbn. split; [reflexivity|discriminate].
Qed.

Lemma isAvailable_frame_witness :
  entry "a" (state_after (isAvailable (mechanism sample_items accept_all)))
  = entry "a" (mechanism sample_items accept_all)
  /\ (result (isAvailable (mechanism sample_items accept_all)) = Normal true ->
      entry STORAGE_AVAILABLE_KEY_
        (state_after (isAvailable (mechanism sample_items accept_all)))
      = None).
Proof.
  apply (isAvailable_frame (mechanism sample_items accept_all) "a").
  discriminate.
Defined.

(** ** __iterator__ and getCount *)

(** C4.  The value iteration visits the entries in positional order: over a
    backend whose values are all strings it yields every value in order and
    finishes; otherwise it yields the values before the first position whose
    value is not a string, in order, raises InvalidValue there and yields
    nothing more, having gone no further than that position. *)
Theorem value_iteration_stops_at_first_non_string
  (s : Host.Storage) (fuel : nat) :
  Host.wf (Host.items s) ->
  List.length (Host.items s) < fuel ->
  exists it,
    result (__iterator__ false (new_HTML5WebStorage (Some s))) = Normal it
    /\ (Host.all_strings (Host.items s) = true ->
        yielded (traverse fuel it) = map snd (Host.items s)
        /\ outcome (traverse fuel it) = Finished)
    /\ (forall pre k v post,
           Host.items s = pre ++ (k, v) :: post ->
           Host.all_strings pre = true ->
           is_string v = false ->
           yielded (traverse fuel it) = map snd pre
           /\ outcome (traverse fuel it) = Aborted (Code INVALID_VALUE)
           /\ newIter.i (final (traverse fuel it)) = S (List.length pre)).
Proof.
  destruct s as [l p j]. cbn [Host.items]. intros Hwf Hfuel.
  exists (iterator_at false 0 (Host.mkStorage l p j)).
  split; [reflexivity|]. split.
  - intros Hall.
    destruct (traverse_all_values l p j fuel Hfuel Hall) as [j' ->].
    split; [|reflexivity]. unfold yielded. cbn [fst].
    apply map_ext_in. intros e He. now apply seen_value_wf.
  - intros pre k v post -> Hpre Hbad.
    destruct (traverse_to_first_non_string pre post k v p j fuel
                Hwf Hfuel Hpre Hbad) as [j' ->].
    repeat split.
Qed.

Lemma value_iteration_stops_at_first_non_string_witness :
  exists it,
    result (__iterator__ false (mechanism sample_items accept_all)) = Normal it
    /\ yielded (traverse 5 it) = [JS.Str "1"; JS.Str "2"]
    /\ outcome (traverse 5 it) = Aborted (Code INVALID_VALUE)
    /\ newIter.i (final (traverse 5 it)) = 3.
Proof.
  destruct (value_iteration_stops_at_first_non_string
              (Host.mkStorage sample_items accept_all []) 5)
    as [it [Hit [_ Hbad]]].
  - unfold Host.wf. simpl.
    repeat (constructor; [simpl; intuition discriminate|]). constructor.
  - simpl. lia.
  - exists it. split; [exact Hit|].
    apply (Hbad [("a", JS.Str "1"); ("b", JS.Str "2")] "c" (JS.Number 3)
             [("d", JS.Str "4")]); reflexivity.
Defined.

(** C5.  Over a backend whose stored values are all strings and which is not
    mutated during the traversal, the iteration returned by [__iterator__]
    (of keys or of values) runs to completion, and the number of elements it
    produces is what [getCount()] returns. *)
Theorem getCount_counts_iteration
  (s : Host.Storage) (keys_only : bool) (fuel : nat) :
  Host.all_strings (Host.items s) = true ->
  List.length (Host.items s) < fuel ->
  exists it,
    result (__iterator__ keys_only (new_HTML5WebStorage (Some s))) = Normal it
    /\ outcome (traverse fuel it) = Finished
    /\ result (getCount (new_HTML5WebStorage (Some s)))
       = Normal (List.length (yielded (traverse fuel it))).
Proof.
  destruct s as [l p j]. cbn [Host.items]. intros Hall Hfuel.
  exists (iterator_at keys_only 0 (Host.mkStorage l p j)).
  split; [reflexivity|].
  destruct keys_only.
  - destruct (traverse_keys l [] p j fuel Hfuel) as [j' [Hrun _]].
    simpl in Hrun. rewrite Hrun. split; [reflexivity|].
    unfold yielded. cbn. now rewrite length_map.
  - destruct (traverse_all_values l p j fuel Hfuel Hall) as [j' ->].
    split; [reflexivity|].
    unfold yielded. cbn. now rewrite length_map.
Qed.

Lemma getCount_counts_iteration_witness :
  exists it,
    result (__iterator__ false
              (mechanism [("a", JS.Str "1"); ("b", JS.Str "2")] accept_all))
    = Normal it
    /\ outcome (traverse 3 it) = Finished
    /\ result (getCount
                 (mechanism [("a", JS.Str "1"); ("b", JS.Str "2")] accept_all))
       = Normal (List.length (yielded (traverse 3 it))).
Proof.
  apply (getCount_counts_iteration
           (Host.mkStorage [("a", JS.Str "1"); ("b", JS.Str "2")] accept_all [])
           false 3).
  - reflexivity.
  - simpl. lia.
Defined.

(** C10.  The keys-only iteration yields every key in positional order and
    finishes, whatever the stored values are; it makes no [getItem] call on
    the backend, so it reads no stored value and cannot raise InvalidValue.
    The value iteration over the same state raises InvalidValue as soon as
    some stored value is not a string. *)
Theorem keys_iteration_reads_no_value (s : Host.Storage) (fuel : nat) :
  List.length (Host.items s) < fuel ->
  exists it,
    result (__iterator__ true (new_HTML5WebStorage (Some s))) = Normal it
    /\ yielded (traverse fuel it)
       = map (fun e => JS.Str (fst e)) (Host.items s)
    /\ outcome (traverse fuel it) = Finished
    /\ (exists j',
           iterator_calls (final (traverse fuel it)) = Host.journal s ++ j'
           /\ forallb not_getItem j' = true)
    /\ (Host.wf (Host.items s) ->
        Host.all_strings (Host.items s) = false ->
        exists itv,
          result (__iterator__ false (new_HTML5WebStorage (Some s)))
          = Normal itv
          /\ outcome (traverse fuel itv) = Aborted (Code INVALID_VALUE)).
Proof.
  destruct s as [l p j]. cbn [Host.items Host.journal]. intros Hfuel.
  exists (iterator_at true 0 (Host.mkStorage l p j)).
  split; [reflexivity|].
  destruct (traverse_keys l [] p j fuel Hfuel) as [j' [Hrun Hj']].
  simpl in Hrun. rewrite Hrun.
  split; [reflexivity|]. split; [reflexivity|]. split.
  - exists j'. now split.
  - intros Hwf Hsome.
    exists (iterator_at false 0 (Host.mkStorage l p j)).
    split; [reflexivity|].
    destruct (first_non_string l Hsome)
      as [pre [k [v [post [-> [Hpre Hbad]]]]]].
    destruct (traverse_to_first_non_string pre post k v p j fuel
                Hwf Hfuel Hpre Hbad) as [j2 ->].
    reflexivity.
Qed.

Lemma keys_iteration_reads_no_value_witness :
  exists it,
    result (__iterator__ true (mechanism sample_items accept_all)) = Normal it
    /\ yielded (traverse 5 it)
       = [JS.Str "a"; JS.Str "b"; JS.Str "c"; JS.Str "d"]
    /\ outcome (traverse 5 it) = Finished
    /\ (exists itv,
           result (__iterator__ false (mechanism sample_items accept_all))
           = Normal itv
           /\ outcome (traverse 5 itv) = Aborted (Code INVALID_VALUE)).
Proof.
  destruct (keys_iteration_reads_no_value
              (Host.mkStorage sample_items accept_all []) 5)
    as [it [Hit [Hy [Ho [_ Hv]]]]].
  - simpl. lia.
  - exists it. split; [exact Hit|]. split; [exact Hy|]. split; [exact Ho|].
    apply Hv.
    + unfold Host.wf. simpl.
      repeat (constructor; [simpl; intuition discriminate|]). constructor.
    + reflexivity.
Defined.

(** ** Concrete runs *)

(** Without a storage object every method but [isAvailable] fails with the
    [TypeError] of a member access on [null]; the properties above are about
    mechanisms that wrap a live storage object. *)
Example set_without_storage :
  result (set "k" "v" no_storage) = Throw TypeError.
Proof. reflexivity. Qed.

Example isAvailable_without_storage :
  result (isAvailable no_storage) = Normal false.
Proof. reflexivity. Qed.

(** A stored [null] reads as an absent entry through [get], but stops the
    value iteration. *)
Example get_stored_null :
  result (get "n" (mechanism [("n", JS.Null)] accept_all)) = Normal JS.Null.
Proof. reflexivity. Qed.

Example iterate_stored_null :
  outcome (traverse 2 (iterator_at false 0
                         (Host.mkStorage [("n", JS.Null)] accept_all [])))
  = Aborted (Code INVALID_VALUE).
Proof. reflexivity. Qed.

(** The probe removes an entry a client stored under the sentinel key. *)
Example isAvailable_drops_sentinel_entry :
  entry STORAGE_AVAILABLE_KEY_
    (state_after (isAvailable
                    (mechanism [(STORAGE_AVAILABLE_KEY_, JS.Str "mine")]
                       accept_all)))
  = None.
Proof. reflexivity. Qed.

(** A host with room for four entries accepts an overwrite and rejects a
    fifth key. *)
Example set_on_full_host :
  result (set "a" "new" (mechanism sample_items (capacity 4))) = Normal tt
  /\ result (set "e" "new" (mechanism sample_items (capacity 4)))
     = Throw (Code QUOTA_EXCEEDED).
Proof. split; reflexivity. Qed.

(** The position of an iterator has already moved on when [next] throws. *)
Example next_position_after_throw :
  newIter.i (state_after
               (newIter.next
                  (iterator_at false 2
                     (Host.mkStorage sample_items accept_all []))))
  = 3.
Proof. reflexivity. Qed.

(** * Further properties of the mechanism *)

Module MoreHostFacts.
Import Host HostFacts.

Lemma drop_put (k : string) (v : JS.Value) (l : Items) :
  drop k (put k v l) = drop k l.
Proof.
  unfold drop. induction l as [|[k' v'] rest IH]; simpl.
  - now rewrite String.eqb_refl.
  - destruct (String.eqb k' k) eqn:E; simpl.
    + now rewrite String.eqb_refl.
    + rewrite E. simpl. now rewrite IH.
Qed.

Lemma drop_absent (k : string) (l : Items) :
  assoc k l = None -> drop k l = l.
Proof.
  unfold drop. induction l as [|[k' v'] rest IH]; simpl; [reflexivity|].
  destruct (String.eqb k' k); [discriminate|].
  intros H. simpl. now rewrite IH.
Qed.

Lemma assoc_none_keys (k : string) (l : Items) :
  assoc k l = None <-> ~ In k (map fst l).
Proof.
  induction l as [|[k' v'] rest IH]; simpl; [tauto|].
  destruct (String.eqb k' k) eqn:E.
  - apply String.eqb_eq in E. subst k'. split; [discriminate|tauto].
  - apply String.eqb_neq in E. rewrite IH. tauto.
Qed.

Lemma drop_present (k : string) (l : Items) :
  wf l -> assoc k l <> None ->
  S (List.length (drop k l)) = List.length l.
Proof.
  unfold wf, drop. induction l as [|[k' v'] rest IH]; simpl.
  - intros _ H. now elim H.
  - intros Hnd Hk. inversion Hnd as [|? ? Hnotin Hnd']; subst.
    destruct (String.eqb k' k) eqn:E; simpl.
    + apply String.eqb_eq in E. subst k'.
      apply assoc_none_keys in Hnotin.
      fold (drop k rest). now rewrite (drop_absent k rest Hnotin).
    + f_equal. now apply IH.
Qed.

Lemma length_put (k : string) (v : JS.Value) (l : Items) :
  List.length (put k v l)
  = match assoc k l with
    | Some _ => List.length l
    | None => S (List.length l)
    end.
Proof.
  induction l as [|[k' v'] rest IH]; simpl; [reflexivity|].
  destruct (String.eqb k' k); simpl; [reflexivity|].
  rewrite IH. now destruct (assoc k rest).
Qed.

Lemma all_strings_put (k v : string) (l : Items) :
  all_strings l = true -> all_strings (put k (JS.Str v) l) = true.
Proof.
  unfold all_strings.
  induction l as [|[k' v'] rest IH]; simpl; [reflexivity|].
  intros H. apply andb_prop in H. destruct H as [H1 H2].
  destruct (String.eqb k' k); simpl.
  - exact H2.
  - rewrite H1. now apply IH.
Qed.

Lemma all_strings_drop (k : string) (l : Items) :
  all_strings l = true -> all_strings (drop k l) = true.
Proof.
  unfold all_strings, drop.
  induction l as [|[k' v'] rest IH]; simpl; [reflexivity|].
  intros H. apply andb_prop in H. destruct H as [H1 H2].
  destruct (String.eqb k' k); simpl; [now apply IH|].
  rewrite H1. now apply IH.
Qed.

Lemma forallb_split {A : Type} (P : A -> bool) (l : list A) :
  forallb P l = false ->
  exists pre x post,
    l = pre ++ x :: post /\ forallb P pre = true /\ P x = false.
Proof.
  induction l as [|a rest IH]; simpl; [discriminate|].
  destruct (P a) eqn:Ha; simpl.
  - intros H. destruct (IH H) as [pre [x [post [-> [Hpre Hx]]]]].
    exists (a :: pre), x, post. simpl. rewrite Ha. now repeat split.
  - intros _. exists [], a, rest. now repeat split.
Qed.

End MoreHostFacts.

Module MoreTraverseFacts.
Import Host HostFacts NextFacts TraverseFacts MoreHostFacts.

(** One [next], whatever the iterator's state: the entries stay as they
    are and only reading calls are made. *)
Lemma next_reads_only (it : newIter.Closure) :
  iterator_entries (state_after (newIter.next it)) = iterator_entries it
  /\ exists j',
      iterator_calls (state_after (newIter.next it)) = iterator_calls it ++ j'
      /\ forallb is_read_call j' = true.
Proof.
  destruct it as [ko n [[l p j]|]].
  - change {| newIter.opt_keys := ko; newIter.i := n;
              newIter.storage := Some (mkStorage l p j) |}
      with (iterator_at ko n (mkStorage l p j)).
    destruct (nth_error l n) as [[k v]|] eqn:Hnth.
    + destruct ko.
      * rewrite (next_keys n l p j k v Hnth).
        split; [reflexivity|]. now exists (calls_of_next true n k).
      * rewrite (next_values n l p j k v Hnth).
        split; [reflexivity|]. now exists (calls_of_next false n k).
    + apply nth_error_None in Hnth. rewrite (next_done ko n l p j Hnth).
      split; [reflexivity|]. now exists [call_length].
  - split; [reflexivity|]. exists []. split; [|reflexivity].
    cbn. reflexivity.
Qed.

Lemma traverse_reads_only (fuel : nat) :
  forall it : newIter.Closure,
    iterator_entries (final (traverse fuel it)) = iterator_entries it
    /\ exists j',
        iterator_calls (final (traverse fuel it)) = iterator_calls it ++ j'
        /\ forallb is_read_call j' = true.
Proof.
  induction fuel as [|fuel IH]; intros it.
  - split; [reflexivity|]. exists []. now rewrite app_nil_r.
  - destruct (next_reads_only it) as [He [j1 [Hj Hr]]].
    simpl traverse. unfold state_after in He, Hj.
    destruct (newIter.next it) as [[r|e] it']; simpl in He, Hj.
    + destruct (done r).
      * split; [exact He|]. now exists j1.
      * destruct (IH it') as [He' [j2 [Hj' Hr']]].
        unfold final in *.
        destruct (traverse fuel it') as [[vs o] it'']. simpl in *.
        split; [congruence|].
        exists (j1 ++ j2). rewrite Hj', Hj, app_assoc. split; [reflexivity|].
        rewrite forallb_app, Hr, Hr'. reflexivity.
    + split; [exact He|]. now exists j1.
Qed.

(** The two ways a value traversal of a whole backend can go. *)
Lemma traverse_values_cases (l : Items) p (j : list Call) (fuel : nat) :
  List.length l < fuel ->
  (forallb (fun e => is_string (seen_value l e)) l = true
   /\ exists j',
       traverse fuel (iterator_at false 0 (mkStorage l p j))
       = (map (seen_value l) l, Finished,
          iterator_at false (List.length l) (mkStorage l p (j ++ j'))))
  \/ (exists pre k v post j',
         l = pre ++ (k, v) :: post
         /\ forallb (fun e => is_string (seen_value l e)) pre = true
         /\ is_string (value_of k l) = false
         /\ traverse fuel (iterator_at false 0 (mkStorage l p j))
            = (map (seen_value l) pre, Aborted (Code INVALID_VALUE),
               iterator_at false (S (List.length pre))
                 (mkStorage l p (j ++ j')))).
Proof.
  intros Hfuel.
  destruct (forallb (fun e => is_string (seen_value l e)) l) eqn:Hall.
  - left. split; [reflexivity|].
    exact (traverse_values_ok l [] p j fuel Hfuel Hall).
  - right.
    destruct (forallb_split _ l Hall) as [pre [[k v] [post [Hl [Hpre Hbad]]]]].
    subst l.
    destruct (traverse_values_bad pre [] post k v p j fuel) as [j' Hrun].
    + rewrite length_app in Hfuel. lia.
    + exact Hpre.
    + exact Hbad.
    + exists pre, k, v, post, j'. repeat split; assumption.
Qed.

Lemma keys_present (k : string) (l : Items) :
  In (JS.Str k) (map (fun e => JS.Str (fst e)) l) <-> assoc k l <> None.
Proof.
  rewrite in_map_iff. split.
  - intros [[k' v'] [[= ->] Hin]] Hnone.
    apply assoc_none_keys in Hnone. apply Hnone.
    change k with (fst (k, v')). now apply in_map.
  - intros Hsome. destruct (assoc k l) as [v|] eqn:Hv; [|now elim Hsome].
    exists (k, v). split; [reflexivity|]. now apply assoc_In.
Qed.

End MoreTraverseFacts.

Import MoreHostFacts MoreTraverseFacts.

(** ** key *)



(** X2.  The keys-only iteration and [key] agree: the element the iteration
    produces at position [n] is what [key(n)] returns, for every position
    below the entry count, and the iteration produces nothing beyond. *)
Theorem keys_iteration_agrees_with_key
  (s : Host.Storage) (fuel n : nat) (v : JS.Value) :
  List.length (Host.items s) < fuel ->
  exists it,
    result (__iterator__ true (new_HTML5WebStorage (Some s))) = Normal it
    /\ (nth_error (yielded (traverse fuel it)) n = Some v <->
        n < List.length (Host.items s)
        /\ result (key n (new_HTML5WebStorage (Some s))) = Normal v).
Proof.
  destruct s as [l p j]. cbn [Host.items]. intros Hfuel.
  exists (iterator_at true 0 (Host.mkStorage l p j)).
  split; [reflexivity|].
  destruct (traverse_keys l [] p j fuel Hfuel) as [j' [Hrun _]].
  simpl in Hrun. rewrite Hrun. unfold yielded. cbn.
  rewrite nth_error_map. unfold Host.key_at.
  destruct (nth_error l n) as [[k v0]|] eqn:Hnth; cbn.
  - assert (n < List.length l)
      by (apply nth_error_Some; now rewrite Hnth).
    split; [intros [= <-]; now split|intros [_ [= <-]]; reflexivity].
  - apply nth_error_None in Hnth.
    split; [discriminate|intros [Hlt _]; lia].
Qed.

Lemma keys_iteration_agrees_with_key_witness :
  exists it,
    result (__iterator__ true (mechanism sample_items accept_all)) = Normal it
    /\ (nth_error (yielded (traverse 5 it)) 2 = Some (JS.Str "c") <->
        2 < 4
        /\ result (key 2 (mechanism sample_items accept_all))
           = Normal (JS.Str "c")).
Proof.
  apply (keys_iteration_agrees_with_key
           (Host.mkStorage sample_items accept_all []) 5 2 (JS.Str "c")).
  simpl. lia.
Defined.

(** X3.  The keys-only iteration enumerates exactly the keys that have an
    entry: a key is produced if and only if the backend holds an entry under
    it. *)
Theorem keys_iteration_enumerates_entries
  (s : Host.Storage) (fuel : nat) (k : string) :
  List.length (Host.items s) < fuel ->
  exists it,
    result (__iterator__ true (new_HTML5WebStorage (Some s))) = Normal it
    /\ (In (JS.Str k) (yielded (traverse fuel it)) <->
        entry k (new_HTML5WebStorage (Some s)) <> None).
Proof.
  destruct s as [l p j]. cbn [Host.items]. intros Hfuel.
  exists (iterator_at true 0 (Host.mkStorage l p j)).
  split; [reflexivity|].
  destruct (traverse_keys l [] p j fuel Hfuel) as [j' [Hrun _]].
  simpl in Hrun. rewrite Hrun. unfold yielded, entry. cbn.
  apply keys_present.
Qed.

Lemma keys_iteration_enumerates_entries_witness :
  exists it,
    result (__iterator__ true (mechanism sample_items accept_all)) = Normal it
    /\ (In (JS.Str "b") (yielded (traverse 5 it)) <->
        entry "b" (mechanism sample_items accept_all) <> None).
Proof.
  apply (keys_iteration_enumerates_entries
           (Host.mkStorage sample_items accept_all []) 5 "b").
  simpl. lia.
Defined.

(** X4.  Every value the value iteration produces is the value [get] returns
    for the key at the same position: iterating values is iterating keys and
    getting each one. *)
Theorem value_iteration_agrees_with_get
  (s : Host.Storage) (fuel n : nat) (v : JS.Value) :
  List.length (Host.items s) < fuel ->
  exists it,
    result (__iterator__ false (new_HTML5WebStorage (Some s))) = Normal it
    /\ (nth_error (yielded (traverse fuel it)) n = Some v ->
        exists k,
          result (key n (new_HTML5WebStorage (Some s))) = Normal (JS.Str k)
          /\ result (get k (new_HTML5WebStorage (Some s))) = Normal v).
Proof.
  destruct s as [l p j]. cbn [Host.items]. intros Hfuel.
  exists (iterator_at false 0 (Host.mkStorage l p j)).
  split; [reflexivity|].
  assert (Hget : forall pre, 
             (exists post, l = pre ++ post) ->
             forallb (fun e => is_string (seen_value l e)) pre = true ->
             nth_error (map (seen_value l) pre) n = Some v ->
             exists k,
               result (key n (new_HTML5WebStorage (Some (Host.mkStorage l p j))))
               = Normal (JS.Str k)
               /\ result (get k (new_HTML5WebStorage
                                   (Some (Host.mkStorage l p j))))
                  = Normal v).
  { intros pre [post Hl] Hpre Hn. rewrite nth_error_map in Hn.
    destruct (nth_error pre n) as [[k v0]|] eqn:Hnth; [|discriminate].
    cbn in Hn. injection Hn as <-. exists k.
    assert (Hs : is_string (seen_value l (k, v0)) = true).
    { rewrite forallb_forall in Hpre. apply Hpre.
      now apply nth_error_In in Hnth. }
    split.
    - cbn. unfold Host.key_at. subst l.
      rewrite nth_error_app1
        by (apply nth_error_Some; now rewrite Hnth).
      now rewrite Hnth.
    - rewrite (run_get (Host.mkStorage l p j) k). cbn.
      unfold seen_value in Hs. cbn in Hs. now rewrite Hs. }
  destruct (traverse_values_cases l p j fuel Hfuel)
    as [[Hall [j' ->]] | [pre [k [v0 [post [j' [Hl [Hpre [_ ->]]]]]]]]];
    unfold yielded; cbn.
  - apply Hget; [exists []; now rewrite app_nil_r|exact Hall].
  - apply Hget; [now exists ((k, v0) :: post)|exact Hpre].
Qed.

Lemma value_iteration_agrees_with_get_witness :
  exists k,
    result (key 1 (mechanism sample_items accept_all)) = Normal (JS.Str k)
    /\ result (get k (mechanism sample_items accept_all))
       = Normal (JS.Str "2").
Proof.
  destruct (value_iteration_agrees_with_get
              (Host.mkStorage sample_items accept_all []) 5 1 (JS.Str "2"))
    as [it [Hit H]].
  - simpl. lia.
  - apply H. injection Hit as <-. reflexivity.
Defined.

(** ** set and remove *)

(** X5.  [set(k, v)] leaves the value under every other key as it was,
    whether the write is accepted or rejected. *)
Theorem set_leaves_other_keys (s : Host.Storage) (k v k' : string) :
  k' <> k ->
  entry k' (state_after (set k v (new_HTML5WebStorage (Some s))))
  = entry k' (new_HTML5WebStorage (Some s)).
Proof.
  intros Hne. rewrite (run_set s k v).
  destruct (Host.write_fault s (Host.items s) k v); unfold entry; cbn.
  - reflexivity.
  - now apply assoc_put_other.
Qed.

Lemma set_leaves_other_keys_witness :
  entry "a" (state_after (set "b" "new" (mechanism sample_items accept_all)))
  = entry "a" (mechanism sample_items accept_all).
Proof.
  apply (set_leaves_other_keys
           (Host.mkStorage sample_items accept_all []) "b" "new" "a").
  discriminate.
Defined.

(** X6.  After a [set(k, v)] that returns, [getCount()] is one more than
    before when [k] had no entry and the same as before when it had one;
    after a [set] that raises, the entries are what they were. *)
Theorem set_and_getCount (s : Host.Storage) (k v : string) :
  let this := new_HTML5WebStorage (Some s) in
  (result (set k v this) = Normal tt ->
   result (getCount (state_after (set k v this)))
   = Normal (match entry k this with
             | Some _ => List.length (entries this)
             | None => S (List.length (entries this))
             end))
  /\ (forall e, result (set k v this) = Throw e ->
                entries (state_after (set k v this)) = entries this).
Proof.
  intros this. unfold this. rewrite (run_set s k v).
  destruct (Host.write_fault s (Host.items s) k v); unfold entry, entries; cbn.
  - split; [discriminate|reflexivity].
  - split; [|discriminate]. intros _. now rewrite length_put.
Qed.

Lemma set_and_getCount_witness :
  result (getCount (state_after
                      (set "e" "5" (mechanism sample_items accept_all))))
  = Normal 5
  /\ result (getCount (state_after
                         (set "a" "5" (mechanism sample_items accept_all))))
     = Normal 4
  /\ entries (state_after (set "e" "5" (mechanism sample_items private_mode)))
     = sample_items.
Proof.
  split; [|split].
  - apply (proj1 (set_and_getCount
                    (Host.mkStorage sample_items accept_all []) "e" "5")).
    reflexivity.
  - apply (proj1 (set_and_getCount
                    (Host.mkStorage sample_items accept_all []) "a" "5")).
    reflexivity.
  - apply (proj2 (set_and_getCount
                    (Host.mkStorage sample_items private_mode []) "e" "5")
             (Code QUOTA_EXCEEDED)).
    reflexivity.
Defined.

(** X7.  [remove(k)] leaves the value under every other key as it was; it
    changes nothing when [k] has no entry, and lowers the entry count by one
    when it has. *)
Theorem remove_frame_and_count (s : Host.Storage) (k : string) :
  let this := new_HTML5WebStorage (Some s) in
  (forall k', k' <> k ->
              entry k' (state_after (remove k this)) = entry k' this)
  /\ (entry k this = None ->
      entries (state_after (remove k this)) = entries this)
  /\ (Host.wf (entries this) -> entry k this <> None ->
      S (List.length (entries (state_after (remove k this))))
      = List.length (entries this)).
Proof.
  intros this. unfold this. rewrite (run_remove s k).
  unfold entry, entries. cbn. split; [|split].
  - intros k' Hne. now apply assoc_drop_other.
  - apply drop_absent.
  - apply drop_present.
Qed.

Lemma remove_frame_and_count_witness :
  entry "a" (state_after (remove "b" (mechanism sample_items accept_all)))
  = entry "a" (mechanism sample_items accept_all)
  /\ entries (state_after (remove "zz" (mechanism sample_items accept_all)))
     = sample_items
  /\ S (List.length
          (entries (state_after
                      (remove "b" (mechanism sample_items accept_all)))))
     = 4.
Proof.
  split; [|split].
  - apply (proj1 (remove_frame_and_count
                    (Host.mkStorage sample_items accept_all []) "b") "a").
    discriminate.
  - apply (proj1 (proj2 (remove_frame_and_count
                           (Host.mkStorage sample_items accept_all []) "zz"))).
    reflexivity.
  - apply (proj2 (proj2 (remove_frame_and_count
                           (Host.mkStorage sample_items accept_all []) "b"))).
    + unfold Host.wf. simpl.
      repeat (constructor; [simpl; intuition discriminate|]). constructor.
    + discriminate.
Defined.

(** ** isAvailable, clear and the strings-only invariant *)

(** X8.  The whole effect of [isAvailable()] on the backend: after a probe
    that returns [true] the entries are the former ones without the one under
    the sentinel key, in their former order; after a probe that returns
    [false] they are untouched. *)
Theorem isAvailable_net_effect (this : HTML5WebStorage) :
  (result (isAvailable this) = Normal true ->
   entries (state_after (isAvailable this))
   = Host.drop STORAGE_AVAILABLE_KEY_ (entries this))
  /\ (result (isAvailable this) = Normal false ->
      entries (state_after (isAvailable this)) = entries this).
Proof.
  destruct this as [[s|]].
  - change {| storage_ := Some s |} with (new_HTML5WebStorage (Some s)).
    rewrite run_isAvailable.
    destruct (Host.write_fault s (Host.items s) STORAGE_AVAILABLE_KEY_ "1");
      unfold entries; cbn.
    + split; [discriminate|reflexivity].
    + split; [|discriminate]. intros _. apply drop_put.
  - cbn. split; [discriminate|reflexivity].
Qed.

Lemma isAvailable_net_effect_witness :
  entries (state_after
             (isAvailable
                (mechanism (("__sak", JS.Str "mine") :: sample_items)
                   accept_all)))
  = sample_items
  /\ entries (state_after (isAvailable (mechanism sample_items private_mode)))
     = sample_items.
Proof.
  split.
  - apply (proj1 (isAvailable_net_effect
                    (mechanism (("__sak", JS.Str "mine") :: sample_items)
                       accept_all))).
    reflexivity.
  - apply (proj2 (isAvailable_net_effect
                    (mechanism sample_items private_mode))).
    reflexivity.
Defined.

(** X9.  The mechanism only ever stores strings: when every stored value is
    a string, it still is after [set], [remove], [clear] and
    [isAvailable], so that a backend written through the mechanism alone
    never makes [get] raise InvalidValue. *)
Theorem mechanism_stores_only_strings (s : Host.Storage) (k v k0 : string) :
  let this := new_HTML5WebStorage (Some s) in
  Host.all_strings (entries this) = true ->
  Host.all_strings (entries (state_after (set k v this))) = true
  /\ Host.all_strings (entries (state_after (remove k this))) = true
  /\ Host.all_strings (entries (state_after (clear this))) = true
  /\ Host.all_strings (entries (state_after (isAvailable this))) = true
  /\ result (get k0 (state_after (set k v this)))
     <> Throw (Code INVALID_VALUE).
Proof.
  intros this. unfold this. intros Hall. unfold entries in Hall. cbn in Hall.
  assert (Hset : Host.all_strings
                   (entries (state_after
                               (set k v (new_HTML5WebStorage (Some s)))))
                 = true).
  { rewrite (run_set s k v).
    destruct (Host.write_fault s (Host.items s) k v); unfold entries; cbn.
    - exact Hall.
    - now apply all_strings_put. }
  split; [exact Hset|]. split; [|split; [|split]].
  - rewrite (run_remove s k). unfold entries. cbn.
    now apply all_strings_drop.
  - reflexivity.
  - rewrite run_isAvailable.
    destruct (Host.write_fault s (Host.items s) STORAGE_AVAILABLE_KEY_ "1");
      unfold entries; cbn.
    + exact Hall.
    + apply all_strings_drop. now apply all_strings_put.
  - revert Hset. rewrite (run_set s k v).
    destruct (Host.write_fault s (Host.items s) k v);
      cbn [state_after snd]; rewrite (run_get _ k0);
      unfold entries, result; cbn; intros Hs;
      unfold Host.value_of.
    + destruct (Host.assoc k0 (Host.items s)) as [v0|] eqn:Hv;
        [|cbn; discriminate].
      apply assoc_In in Hv.
      unfold is_string. rewrite (all_strings_In _ k0 v0 Hs Hv).
      cbn. discriminate.
    + destruct (Host.assoc k0 (Host.put k (JS.Str v) (Host.items s)))
        as [v0|] eqn:Hv; [|cbn; discriminate].
      apply assoc_In in Hv.
      unfold is_string. rewrite (all_strings_In _ k0 v0 Hs Hv).
      cbn. discriminate.
Qed.

Lemma mechanism_stores_only_strings_witness :
  Host.all_strings
    (entries (state_after
                (set "c" "3" (mechanism [("a", JS.Str "1")] accept_all))))
  = true.
Proof.
  apply (mechanism_stores_only_strings
           (Host.mkStorage [("a", JS.Str "1")] accept_all []) "c" "3" "a").
  reflexivity.
Defined.

(** X10.  After [clear()] nothing is left to read: [get] returns [null] for
    every key, [key] returns [null] for every index, and both iterations
    finish without producing an element. *)
Theorem clear_leaves_nothing
  (s : Host.Storage) (k : string) (n fuel : nat) (keys_only : bool) :
  0 < fuel ->
  let cleared := state_after (clear (new_HTML5WebStorage (Some s))) in
  result (get k cleared) = Normal JS.Null
  /\ result (key n cleared) = Normal JS.Null
  /\ exists it,
      result (__iterator__ keys_only cleared) = Normal it
      /\ yielded (traverse fuel it) = []
      /\ outcome (traverse fuel it) = Finished.
Proof.
  intros Hfuel cleared. unfold cleared.
  split; [reflexivity|]. split.
  - cbn. unfold Host.key_at. now destruct n.
  - eexists. split; [reflexivity|].
    destruct fuel as [|fuel]; [lia|]. now destruct keys_only.
Qed.

Lemma clear_leaves_nothing_witness :
  result (get "a" (state_after (clear (mechanism sample_items accept_all))))
  = Normal JS.Null.
Proof.
  apply (clear_leaves_nothing
           (Host.mkStorage sample_items accept_all []) "a" 0 1 false).
  lia.
Defined.

(** ** More on iteration *)

(** X11.  Iterating never writes: whatever the mechanism, the mode and the
    number of steps taken, a traversal leaves the entries as they were and
    calls nothing on the backend but [length], [key] and [getItem]. *)
Theorem iteration_never_writes
  (this : HTML5WebStorage) (keys_only : bool) (fuel : nat) :
  exists it,
    result (__iterator__ keys_only this) = Normal it
    /\ iterator_entries (final (traverse fuel it)) = entries this
    /\ exists j',
        iterator_calls (final (traverse fuel it)) = iterator_calls it ++ j'
        /\ forallb is_read_call j' = true.
Proof.
  eexists. split; [reflexivity|].
  destruct (traverse_reads_only fuel
              {| newIter.opt_keys := keys_only; newIter.i := 0;
                 newIter.storage := storage_ this |}) as [He Hj].
  split; [|exact Hj]. rewrite He. reflexivity.
Qed.

(** X12.  An iterator cannot be restarted: once a traversal has finished,
    traversing the same iterator again produces nothing and finishes at
    once. *)
Theorem finished_iterator_stays_finished
  (s : Host.Storage) (keys_only : bool) (fuel fuel' : nat) :
  List.length (Host.items s) < fuel ->
  0 < fuel' ->
  exists it,
    result (__iterator__ keys_only (new_HTML5WebStorage (Some s))) = Normal it
    /\ (outcome (traverse fuel it) = Finished ->
        yielded (traverse fuel' (final (traverse fuel it))) = []
        /\ outcome (traverse fuel' (final (traverse fuel it))) = Finished).
Proof.
  destruct s as [l p j]. cbn [Host.items]. intros Hfuel Hfuel'.
  exists (iterator_at keys_only 0 (Host.mkStorage l p j)).
  split; [reflexivity|].
  destruct fuel' as [|fuel']; [lia|].
  destruct keys_only.
  - destruct (traverse_keys l [] p j fuel Hfuel) as [j' [Hrun _]].
    simpl in Hrun. rewrite Hrun. intros _. unfold final. cbn [snd].
    simpl traverse. rewrite next_done by lia. now split.
  - destruct (traverse_values_cases l p j fuel Hfuel)
      as [[_ [j' ->]] | [pre [k [v [post [j' [_ [_ [_ ->]]]]]]]]].
    + intros _. unfold final. cbn [snd].
      simpl traverse. rewrite next_done by lia. now split.
    + discriminate.
Qed.

Lemma finished_iterator_stays_finished_witness :
  exists it,
    result (__iterator__ true (mechanism sample_items accept_all)) = Normal it
    /\ yielded (traverse 1 (final (traverse 5 it))) = []
    /\ outcome (traverse 1 (final (traverse 5 it))) = Finished.
Proof.
  destruct (finished_iterator_stays_finished
              (Host.mkStorage sample_items accept_all []) true 5 1)
    as [it [Hit H]].
  - simpl. lia.
  - lia.
  - exists it. split; [exact Hit|]. apply H.
    injection Hit as <-. reflexivity.
Defined.

(** X13.  A thrown InvalidValue does not close the iterator: its position
    has already moved past the offending entry, so a traversal that is taken
    up again skips that entry and produces the values after it. *)
Theorem iteration_resumes_past_invalid_value
  (s : Host.Storage) (fuel fuel' : nat)
  (pre post : Host.Items) (k : string) (v : JS.Value) :
  Host.wf (Host.items s) ->
  List.length (Host.items s) < fuel ->
  List.length (Host.items s) < fuel' ->
  Host.items s = pre ++ (k, v) :: post ->
  Host.all_strings pre = true ->
  is_string v = false ->
  Host.all_strings post = true ->
  exists it,
    result (__iterator__ false (new_HTML5WebStorage (Some s))) = Normal it
    /\ outcome (traverse fuel it) = Aborted (Code INVALID_VALUE)
    /\ yielded (traverse fuel' (final (traverse fuel it))) = map snd post
    /\ outcome (traverse fuel' (final (traverse fuel it))) = Finished.
Proof.
  destruct s as [l p j]. cbn [Host.items].
  intros Hwf Hfuel Hfuel' -> Hpre Hbad Hpost.
  exists (iterator_at false 0 (Host.mkStorage (pre ++ (k, v) :: post) p j)).
  split; [reflexivity|].
  destruct (traverse_to_first_non_string pre post k v p j fuel
              Hwf Hfuel Hpre Hbad) as [j' ->].
  split; [reflexivity|]. unfold final. cbn [snd].
  assert (Hin : forall e, In e post -> In e (pre ++ (k, v) :: post)).
  { intros e He. apply in_or_app. right. now right. }
  destruct (traverse_values_ok post (pre ++ [(k, v)]) p (j ++ j') fuel')
    as [j2 Hrun].
  - rewrite length_app in Hfuel'. simpl in Hfuel'. lia.
  - apply forallb_forall. intros e He.
    rewrite <- snoc_shift.
    rewrite (seen_value_wf _ e Hwf (Hin e He)).
    destruct e as [k0 v0]. exact (all_strings_In post k0 v0 Hpost He).
  - rewrite length_snoc, <- snoc_shift in Hrun. rewrite Hrun.
    unfold yielded, outcome. cbn. split; [|reflexivity].
    apply map_ext_in. intros e He. apply seen_value_wf; auto.
Qed.

Lemma iteration_resumes_past_invalid_value_witness :
  exists it,
    result (__iterator__ false (mechanism sample_items accept_all)) = Normal it
    /\ outcome (traverse 5 it) = Aborted (Code INVALID_VALUE)
    /\ yielded (traverse 5 (final (traverse 5 it))) = [JS.Str "4"]
    /\ outcome (traverse 5 (final (traverse 5 it))) = Finished.
Proof.
  apply (iteration_resumes_past_invalid_value
           (Host.mkStorage sample_items accept_all []) 5 5
           [("a", JS.Str "1"); ("b", JS.Str "2")] [("d", JS.Str "4")]
           "c" (JS.Number 3)).
  - unfold Host.wf. simpl.
    repeat (constructor; [simpl; intuition discriminate|]). constructor.
  - simpl. lia.
  - simpl. lia.
  - reflexivity.
  - reflexivity.
  - reflexivity.
  - reflexivity.
Defined.

(** ** A mechanism without a storage object *)

(** X14.  On a mechanism constructed without a storage object, only
    [isAvailable] is safe: [set], [get], [remove], [getCount], [clear], [key]
    and the first [next] of either iteration all fail with the [TypeError] of
    a member access on [null]; in particular [set] does not report
    StorageDisabled. *)
Theorem methods_need_a_storage_object
  (k v : string) (n fuel : nat) (keys_only : bool) :
  let this := new_HTML5WebStorage None in
  result (isAvailable this) = Normal false
  /\ result (set k v this) = Throw TypeError
  /\ result (get k this) = Throw TypeError
  /\ result (remove k this) = Throw TypeError
  /\ result (getCount this) = Throw TypeError
  /\ result (clear this) = Throw TypeError
  /\ result (key n this) = Throw TypeError
  /\ exists it,
      result (__iterator__ keys_only this) = Normal it
      /\ yielded (traverse (S fuel) it) = []
      /\ outcome (traverse (S fuel) it) = Aborted TypeError.
Proof.
  cbn. repeat (split; [reflexivity|]).
  eexists. split; [reflexivity|]. now split.
Qed.

(** * goog.window *)

Import Window.

Module WindowFacts.
Import Window.

Lemma policy_test (e : Env) :
  String.eqb
    match Request_referrerPolicy e with
    | Some policy => policy
    | None => "strict-origin-when-cross-origin"
    end "unsafe-url"
  = unsafe_referrer_policy e.
Proof.
  unfold unsafe_referrer_policy. now destruct (Request_referrerPolicy e).
Qed.

(** The options object [open] works on. *)
Lemma open_null (e : Env) (o : option Obj) (pw : option Win) :
  open e LinkNull o pw = ([], Throws JsTypeError).
Proof. reflexivity. Qed.

Lemma open_refuses (e : Env) (l : LinkRef) (o : option Obj) (pw : option Win) :
  l <> LinkNull ->
  supports_coop e
  && truthy (get_prop "noreferrer"
               match o with Some o => o | None => [] end)
  && unsafe_referrer_policy e = true ->
  open e l o pw = ([], Throws (JsError unsafe_url_message)).
Proof.
  intros Hl Hc. unfold open. rewrite policy_test.
  fold (supports_coop e). rewrite Hc.
  destruct l; try reflexivity. now elim Hl.
Qed.

Lemma open_returns (e : Env) (l : LinkRef) (o : option Obj) (pw : option Win) :
  l <> LinkNull ->
  supports_coop e
  && truthy (get_prop "noreferrer"
               match o with Some o => o | None => [] end)
  && unsafe_referrer_policy e = false ->
  exists w, ended (open e l o pw) = Returns w.
Proof.
  intros Hl Hc. unfold open. rewrite policy_test.
  fold (supports_coop e). rewrite Hc.
  destruct l; try (now elim Hl); cbn [ended snd]; branches; eexists;
    reflexivity.
Qed.

End WindowFacts.

Import WindowFacts.

(** ** Exceptions of open *)

(** X15.  [open] raises its own error exactly when the link is not [null],
    the browser knows cross-origin isolation, the [noreferrer] option is set
    and the page's referrer policy is [unsafe-url]; on a [null] link it fails
    with a [TypeError]; it raises nothing else, and whenever it raises it has
    not touched the page or the browser. *)
Theorem open_raises_before_any_effect
  (e : Env) (linkRef : LinkRef) (opt_options : option Obj)
  (opt_parentWin : option Win) :
  let o := match opt_options with Some o => o | None => [] end in
  (ended (open e linkRef opt_options opt_parentWin)
   = Throws (JsError unsafe_url_message) <->
   linkRef <> LinkNull
   /\ supports_coop e = true
   /\ truthy (get_prop "noreferrer" o) = true
   /\ unsafe_referrer_policy e = true)
  /\ (ended (open e linkRef opt_options opt_parentWin) = Throws JsTypeError <->
      linkRef = LinkNull)
  /\ (forall t, ended (open e linkRef opt_options opt_parentWin) = Throws t ->
                effects (open e linkRef opt_options opt_parentWin) = []
                /\ (t = JsTypeError \/ t = JsError unsafe_url_message)).
Proof.
  intros o.
  assert (Hnull : linkRef = LinkNull \/ linkRef <> LinkNull)
    by (destruct linkRef; (now left) || (right; discriminate)).
  destruct Hnull as [-> | Hl].
  - rewrite open_null. cbn. split; [|split].
    + split; [discriminate|]. intros [H _]. now elim H.
    + tauto.
    + intros t [= <-]. split; [reflexivity|now left].
  - destruct (supports_coop e && truthy (get_prop "noreferrer" o)
              && unsafe_referrer_policy e) eqn:Hc.
    + rewrite (open_refuses e linkRef opt_options opt_parentWin Hl Hc). cbn.
      apply andb_prop in Hc. destruct Hc as [Hc Hu].
      apply andb_prop in Hc. destruct Hc as [Hc Hn].
      split; [|split].
      * tauto.
      * split; [discriminate|]. intros ->. now elim Hl.
      * intros t [= <-]. split; [reflexivity|now right].
    + destruct (open_returns e linkRef opt_options opt_parentWin Hl Hc)
        as [w Hw].
      rewrite Hw. split; [|split].
      * split; [discriminate|]. intros [_ [H1 [H2 H3]]].
        fold o in Hc. rewrite H1, H2, H3 in Hc. discriminate Hc.
      * split; [discriminate|]. intros ->. now elim Hl.
      * intros t Ht. discriminate Ht.
Qed.

(** ** The noreferrer and noopener options *)



(** X17.  Where the [noreferrer] option is in force (it is set and the
    browser does not know cross-origin isolation), [open] never hands the
    link itself to the browser: every window it asks for is asked for with
    the empty URL, and the emulated window of iOS gets its anchor marked
    [rel=noreferrer]. *)
Theorem noreferrer_keeps_link_from_browser
  (e : Env) (linkRef : LinkRef) (opt_options : option Obj)
  (opt_parentWin : option Win) :
  supports_coop e = false ->
  truthy (get_prop "noreferrer" (options_of opt_options)) = true ->
  (forall x,
      In x (effects (open e linkRef opt_options opt_parentWin)) ->
      is_openInWindow x = true -> opens_empty_url x = true)
  /\ (ended (open e linkRef opt_options opt_parentWin) = Returns FakeWindow ->
      In (setAttribute "rel" (JS.Str "noreferrer"))
        (effects (open e linkRef opt_options opt_parentWin))).
Proof.
  intros Hc Hn. unfold options_of in Hn.
  unfold open. rewrite policy_test. fold (supports_coop e).
  rewrite Hc, Hn. cbn [andb].
  destruct linkRef; cbn [effects ended fst snd].
  all: branches.
  all: cbn; intuition (subst; try discriminate; auto).
Qed.

Lemma noreferrer_keeps_link_from_browser_witness :
  opens_empty_url
    (openInWindow EmptyUrl main_window (JS.Str "help") "width=500,toolbar=0")
  = true.
Proof.
  apply (proj1 (noreferrer_keeps_link_from_browser
                  (desktop false "no-referrer" false)
                  (LinkString "http://a/") (Some sample_options) None
                  eq_refl eq_refl)
           (openInWindow EmptyUrl main_window (JS.Str "help")
              "width=500,toolbar=0")).
  - cbn. left. reflexivity.
  - reflexivity.
Defined.

(** X18.  [open] clears the opener of the new window exactly when a window
    was opened and either the [noopener] option is set or the [noreferrer]
    option is in force. *)
Theorem opener_is_cleared_exactly_on_request
  (e : Env) (linkRef : LinkRef) (opt_options : option Obj)
  (opt_parentWin : option Win) :
  In set_opener_null (effects (open e linkRef opt_options opt_parentWin)) <->
  (exists w, ended (open e linkRef opt_options opt_parentWin)
             = Returns (NewWindow w))
  /\ (truthy (get_prop "noopener" (options_of opt_options)) = true
      \/ (truthy (get_prop "noreferrer" (options_of opt_options)) = true
          /\ supports_coop e = false)).
Proof.
  unfold options_of, open. rewrite policy_test. fold (supports_coop e).
  destruct (supports_coop e);
    destruct (truthy (get_prop "noreferrer"
                        match opt_options with Some o => o | None => [] end))
      eqn:Hn; cbn [andb truthy].
  all: destruct linkRef; cbn [effects ended fst snd].
  all: branches.
  all: cbn; split;
    [ intros H; intuition (subst; try discriminate; eauto)
    | intros [[? ?] ?]; intuition (subst; try discriminate; eauto) ].
Qed.

Module OpenFacts.
Import Window Host HostFacts.

Lemma get_set_same (n : string) (v : JS.Value) (o : Obj) :
  get_prop n (set_prop n v o) = v.
Proof. unfold get_prop, set_prop. now rewrite assoc_put_same. Qed.

Lemma get_set_other (n n' : string) (v : JS.Value) (o : Obj) :
  n' <> n -> get_prop n' (set_prop n v o) = get_prop n' o.
Proof.
  intros H. unfold get_prop, set_prop. now rewrite assoc_put_other.
Qed.

(** A [null] from [open] comes from a single request that the browser
    turned down. *)
Lemma open_blocked (e : Env) (l : LinkRef) (o : option Obj) (pw : option Win) :
  ended (open e l o pw) = Returns NoWindow ->
  exists url features,
    effects (open e l o pw)
    = [openInWindow url (parent_of e pw) (target_of l o) features]
    /\ browser_opens e url (parent_of e pw) (target_of l o) features = None.
Proof.
  unfold parent_of, target_of, options_of, open.
  destruct l; cbn [effects ended fst snd]; try discriminate.
  all: branches; try discriminate.
  all: intros _; eexists; eexists; split; [reflexivity|]; assumption.
Qed.

Lemma control_cases (c : string) :
  is_control c = true -> c = "target" \/ c = "noopener" \/ c = "noreferrer".
Proof.
  unfold is_control. intros H.
  apply orb_prop in H. destruct H as [H | H].
  - apply orb_prop in H. destruct H as [H | H];
      apply String.eqb_eq in H; auto.
  - apply String.eqb_eq in H. auto.
Qed.

(** A control option adds nothing to the features, whatever its value. *)
Lemma feature_of_control (e : Env) (o : Obj) (c : string) :
  is_control c = true -> feature_of e o c = [].
Proof.
  intros H. destruct (control_cases c H) as [-> | [-> | ->]]; reflexivity.
Qed.

Lemma feature_of_set_control
  (e : Env) (o : Obj) (c : string) (v : JS.Value) (n : string) :
  is_control c = true ->
  feature_of e (set_prop c v o) n = feature_of e o n.
Proof.
  intros H. destruct (String.eqb n c) eqn:E.
  - apply String.eqb_eq in E. subst n. now rewrite !feature_of_control.
  - apply String.eqb_neq in E. unfold feature_of.
    now rewrite (get_set_other c n v o E).
Qed.

Lemma features_skip_key (f : string -> list string) (c : string)
  (v : JS.Value) (o : Obj) :
  f c = [] ->
  flat_map f (map fst (set_prop c v o)) = flat_map f (map fst o).
Proof.
  intros Hc. unfold set_prop.
  induction o as [|[k' v'] rest IH]; simpl.
  - now rewrite Hc.
  - destruct (String.eqb k' c) eqn:E; simpl.
    + apply String.eqb_eq in E. now subst k'.
    + now rewrite IH.
Qed.

End OpenFacts.

Import OpenFacts.

(** ** What open returns *)

(** X19.  When [open] returns [null], all it has done is ask the browser
    once, from the parent window and with the target taken from the options
    or the link, for a window that the browser did not open. *)
Theorem blocked_popup_leaves_no_trace
  (e : Env) (linkRef : LinkRef) (opt_options : option Obj)
  (opt_parentWin : option Win) :
  ended (open e linkRef opt_options opt_parentWin) = Returns NoWindow ->
  exists url features,
    effects (open e linkRef opt_options opt_parentWin)
    = [openInWindow url (parent_of e opt_parentWin)
         (target_of linkRef opt_options) features]
    /\ browser_opens e url (parent_of e opt_parentWin)
         (target_of linkRef opt_options) features = None.
Proof. apply open_blocked. Qed.

Lemma blocked_popup_leaves_no_trace_witness :
  exists url features,
    effects (open (desktop false "no-referrer" true)
               (LinkString "http://a/") (Some sample_options) None)
    = [openInWindow url main_window (JS.Str "help") features]
    /\ browser_opens (desktop false "no-referrer" true) url main_window
         (JS.Str "help") features = None.
Proof.
  apply (blocked_popup_leaves_no_trace
           (desktop false "no-referrer" true) (LinkString "http://a/")
           (Some sample_options) None).
  reflexivity.
Defined.

(** X20.  [open] returns the emulated window only on iOS from a window in
    standalone mode, and then it has not asked the browser for a window at
    all: it has set the target on an anchor and sent the anchor a click. *)
Theorem fake_window_comes_from_a_click
  (e : Env) (linkRef : LinkRef) (opt_options : option Obj)
  (opt_parentWin : option Win) :
  ended (open e linkRef opt_options opt_parentWin) = Returns FakeWindow ->
  ios_standalone e (parent_of e opt_parentWin) = true
  /\ (forall x,
         In x (effects (open e linkRef opt_options opt_parentWin)) ->
         is_openInWindow x = false)
  /\ In (setAttribute "target" (target_of linkRef opt_options))
       (effects (open e linkRef opt_options opt_parentWin))
  /\ In (dispatch_click (parent_of e opt_parentWin))
       (effects (open e linkRef opt_options opt_parentWin)).
Proof.
  unfold ios_standalone, parent_of, target_of, options_of, open.
  destruct linkRef; cbn [effects ended fst snd]; try discriminate.
  all: branches; try discriminate.
  all: intros _; cbn in *;
    repeat match goal with
           | H : _ && _ = true |- _ =>
               apply andb_prop in H; destruct H
           end;
    intuition (subst; try discriminate; auto);
    repeat match goal with
           | H : _ = true |- _ => rewrite H
           end; reflexivity.
Qed.

Lemma fake_window_comes_from_a_click_witness :
  In (dispatch_click (window ios_web_app))
    (effects (open ios_web_app (LinkString "http://a/")
                (Some sample_options) None)).
Proof.
  apply (fake_window_comes_from_a_click
           ios_web_app (LinkString "http://a/") (Some sample_options) None).
  reflexivity.
Defined.

(** ** The feature string *)

(** X21.  The [target], [noopener] and [noreferrer] options never reach the
    feature string that [open] hands to the browser: setting any of them, to
    any value, leaves the string as it was. *)
Theorem control_options_stay_out_of_features
  (e : Env) (o : Obj) (c : string) (v : JS.Value) :
  is_control c = true ->
  optionString e (set_prop c v o) = optionString e o.
Proof.
  intros Hc. unfold optionString. f_equal.
  rewrite (features_skip_key _ c v o)
    by (now apply feature_of_control).
  apply flat_map_ext. intros n. now apply feature_of_set_control.
Qed.

Lemma control_options_stay_out_of_features_witness :
  optionString (desktop false "no-referrer" false)
    (set_prop "noopener" (JS.Boolean true) sample_options)
  = optionString (desktop false "no-referrer" false) sample_options.
Proof.
  apply (control_options_stay_out_of_features
           (desktop false "no-referrer" false) sample_options "noopener"
           (JS.Boolean true)).
  reflexivity.
Defined.

(** ** popup *)

Module PopupFacts.
Import Window WindowFacts OpenFacts.

Lemma or_else_truthy (a b : JS.Value) :
  truthy b = true -> truthy (or_else a b) = true.
Proof. unfold or_else. intros H. now destruct (truthy a) eqn:E. Qed.

Lemma popup_target_truthy (l : LinkRef) (o : Obj) :
  truthy (popup_target l o) = true.
Proof.
  unfold popup_target. apply or_else_truthy. now apply or_else_truthy.
Qed.

(** The options as [popup] passes them on to [open]. *)
Lemma popup_run (e : Env) (l : LinkRef) (o : Obj) :
  l <> LinkNull ->
  exists o',
    o' = set_prop "height"
           (or_else (get_prop "height" o) (JS.Number DEFAULT_POPUP_HEIGHT))
           (set_prop "width"
              (or_else (get_prop "width" o) (JS.Number DEFAULT_POPUP_WIDTH))
              (set_prop "target" (popup_target l o) o))
    /\ popup e l (Some o)
       = match open e l (Some o') None with
         | (effects, Throws t) => (o', effects, Throws t)
         | (effects, Returns NoWindow) => (o', effects, Returns true)
         | (effects, Returns FakeWindow) => (o', effects, Throws JsTypeError)
         | (effects, Returns (NewWindow _)) =>
             (o', effects ++ [focus], Returns false)
         end.
Proof.
  intros Hl. eexists. split; [reflexivity|].
  unfold popup. cbv zeta.
  destruct (truthy (get_prop "target" o)) eqn:Ht.
  - replace (popup_target l o) with (get_prop "target" o)
      by (unfold popup_target, or_else; now rewrite Ht).
    cbv iota. rewrite !get_set_other by discriminate. reflexivity.
  - assert (Hpt : popup_target l o
                  = or_else (link_target l) (JS.Str DEFAULT_POPUP_TARGET))
      by (unfold popup_target; unfold or_else at 1; now rewrite Ht).
    rewrite Hpt.
    destruct l; try (now elim Hl); cbv iota;
      rewrite !get_set_other by discriminate; reflexivity.
Qed.

Lemma popup_null (e : Env) (o : option Obj) :
  ended_of (popup e LinkNull o) = Throws JsTypeError
  /\ effects_of (popup e LinkNull o) = [].
Proof.
  unfold popup.
  destruct (truthy (get_prop "target"
                      match o with Some o0 => o0 | None => [] end)).
  - rewrite open_null. now split.
  - now split.
Qed.

(** On iOS from a window in standalone mode, [open] answers with the
    emulated window for every target but ['_self']. *)
Lemma open_on_ios (e : Env) (l : LinkRef) (o : Obj) (pw : option Win) :
  l <> LinkNull ->
  refuses e o = false ->
  ios_standalone e (parent_of e pw) = true ->
  truthy (target_of l (Some o)) = true ->
  differs_from_self e (target_of l (Some o)) = true ->
  ended (open e l (Some o) pw) = Returns FakeWindow
  /\ In (dispatch_click (parent_of e pw)) (effects (open e l (Some o) pw)).
Proof.
  unfold refuses, ios_standalone, parent_of, target_of, options_of.
  intros Hl Hr Hios Ht Hd. unfold open. rewrite policy_test.
  fold (supports_coop e). rewrite Hr.
  destruct l; try (now elim Hl); cbn [ended effects fst snd];
    cbn [link_target] in *; rewrite Hios, Ht, Hd; cbn [andb];
    (split; [reflexivity|]);
    apply in_or_app; right; apply in_or_app; right; now left.
Qed.

End PopupFacts.

Import PopupFacts.

(** X22.  [popup] completes the options it is given, in place: afterwards
    [target], [width] and [height] are all set; a value that was given and
    is not falsy is kept, a missing or falsy width becomes 690, a missing or
    falsy height 500 and, when the link has no target either, a missing
    target ["google_popup"]; no other option is touched. *)
Theorem popup_fills_in_defaults
  (e : Env) (linkRef : LinkRef) (o : Obj) (n : string) :
  linkRef <> LinkNull ->
  let o' := options_after (popup e linkRef (Some o)) in
  truthy (get_prop "target" o') = true
  /\ truthy (get_prop "width" o') = true
  /\ truthy (get_prop "height" o') = true
  /\ (truthy (get_prop "target" o) = true ->
      get_prop "target" o' = get_prop "target" o)
  /\ (truthy (get_prop "target" o) = false ->
      truthy (link_target linkRef) = false ->
      get_prop "target" o' = JS.Str "google_popup")
  /\ (truthy (get_prop "width" o) = true ->
      get_prop "width" o' = get_prop "width" o)
  /\ (truthy (get_prop "width" o) = false ->
      get_prop "width" o' = JS.Number 690)
  /\ (truthy (get_prop "height" o) = true ->
      get_prop "height" o' = get_prop "height" o)
  /\ (truthy (get_prop "height" o) = false ->
      get_prop "height" o' = JS.Number 500)
  /\ (n <> "target" -> n <> "width" -> n <> "height" ->
      get_prop n o' = get_prop n o).
Proof.
  intros Hl o'.
  destruct (popup_run e linkRef o Hl) as [o3 [Ho3 Hrun]].
  assert (Ho' : o' = o3).
  { unfold o'. rewrite Hrun.
    now destruct (open e linkRef (Some o3) None) as [eff [[| |w]|t]]. }
  rewrite Ho', Ho3. clear.
  rewrite get_set_same.
  rewrite !(get_set_other "height") by discriminate.
  rewrite get_set_same.
  rewrite !(get_set_other "width") by discriminate.
  rewrite get_set_same.
  repeat split.
  - apply popup_target_truthy.
  - now apply or_else_truthy.
  - now apply or_else_truthy.
  - intros H. unfold popup_target, or_else. now rewrite H.
  - intros H1 H2. unfold popup_target, or_else. now rewrite H1, H2.
  - intros H. unfold or_else. now rewrite H.
  - intros H. unfold or_else. now rewrite H.
  - intros H. unfold or_else. now rewrite H.
  - intros H. unfold or_else. now rewrite H.
  - intros H1 H2 H3. now rewrite !get_set_other by assumption.
Qed.

Lemma popup_fills_in_defaults_witness :
  get_prop "width"
    (options_after
       (popup (desktop false "no-referrer" false) (LinkString "http://a/")
          (Some [("width", JS.Number 0); ("menubar", JS.Boolean true)])))
  = JS.Number 690.
Proof.
  apply (popup_fills_in_defaults
           (desktop false "no-referrer" false) (LinkString "http://a/")
           [("width", JS.Number 0); ("menubar", JS.Boolean true)] "menubar").
  - discriminate.
  - reflexivity.
Defined.

(** X23.  [popup] returns [true] only after the browser has turned down its
    one request for a window, and [false] only after a window was opened, to
    which it then gives the focus as its last act; on a [null] link it fails
    with a [TypeError] before doing anything. *)
Theorem popup_reports_whether_blocked
  (e : Env) (linkRef : LinkRef) (o : Obj) :
  let p := popup e linkRef (Some o) in
  (ended_of p = Returns true ->
   exists url features,
     effects_of p
     = [openInWindow url (window e) (popup_target linkRef o) features]
     /\ browser_opens e url (window e) (popup_target linkRef o) features
        = None)
  /\ (ended_of p = Returns false ->
      exists pre w,
        effects_of p = pre ++ [focus]
        /\ open e linkRef (Some (options_after p)) None
           = (pre, Returns (NewWindow w)))
  /\ (linkRef = LinkNull ->
      ended_of p = Throws JsTypeError /\ effects_of p = []).
Proof.
  intros p. unfold p.
  assert (Hnull : linkRef = LinkNull \/ linkRef <> LinkNull)
    by (destruct linkRef; (now left) || (right; discriminate)).
  destruct Hnull as [-> | Hl].
  - destruct (popup_null e (Some o)) as [H1 H2]. rewrite H1, H2.
    repeat split; discriminate.
  - destruct (popup_run e linkRef o Hl) as [o3 [Ho3 Hrun]].
    rewrite Hrun.
    destruct (open e linkRef (Some o3) None) as [eff [[| |w]|t]] eqn:Hopen;
      cbn [ended_of effects_of options_after fst snd].
    + split; [|split]; [|discriminate|intros ->; now elim Hl].
      intros _.
      destruct (open_blocked e linkRef (Some o3) None) as [u [f [He Hb]]];
        [now rewrite Hopen|].
      rewrite Hopen in He. cbn in He.
      assert (Ht : target_of linkRef (Some o3) = popup_target linkRef o).
      { unfold target_of, options_of. rewrite Ho3.
        rewrite !(get_set_other "height"), !(get_set_other "width")
          by discriminate.
        rewrite get_set_same. unfold or_else at 1.
        now rewrite popup_target_truthy. }
      rewrite Ht in He, Hb. cbn [parent_of] in He, Hb.
      now exists u, f.
    + split; [|split]; [discriminate|discriminate|intros ->; now elim Hl].
    + split; [|split]; [discriminate| |intros ->; now elim Hl].
      intros _. now exists eff, w.
    + split; [|split]; [discriminate|discriminate|intros ->; now elim Hl].
Qed.

Lemma popup_reports_whether_blocked_witness :
  exists url features,
    effects_of (popup (desktop false "no-referrer" true)
                  (LinkString "http://a/") (Some sample_options))
    = [openInWindow url main_window
         (popup_target (LinkString "http://a/") sample_options) features]
    /\ browser_opens (desktop false "no-referrer" true) url main_window
         (popup_target (LinkString "http://a/") sample_options) features
       = None.
Proof.
  apply (proj1 (popup_reports_whether_blocked
                  (desktop false "no-referrer" true) (LinkString "http://a/")
                  sample_options)).
  reflexivity.
Defined.

(** X24.  On iOS, from a window in standalone mode, [popup] cannot return:
    [open] sends the click and answers with the emulated window, which has
    no [focus] method, so that [popup] fails with a [TypeError] after the
    click has been sent (unless the target is ['_self'] or [open] itself
    refuses). *)
Theorem popup_fails_on_ios_standalone
  (e : Env) (linkRef : LinkRef) (o : Obj) :
  linkRef <> LinkNull ->
  ios_standalone e (window e) = true ->
  refuses e o = false ->
  differs_from_self e (popup_target linkRef o) = true ->
  ended_of (popup e linkRef (Some o)) = Throws JsTypeError
  /\ In (dispatch_click (window e)) (effects_of (popup e linkRef (Some o))).
Proof.
  intros Hl Hios Hr Hd.
  destruct (popup_run e linkRef o Hl) as [o3 [Ho3 Hrun]].
  assert (Ht : target_of linkRef (Some o3) = popup_target linkRef o).
  { unfold target_of, options_of. rewrite Ho3.
    rewrite !(get_set_other "height"), !(get_set_other "width")
      by discriminate.
    rewrite get_set_same. unfold or_else at 1.
    now rewrite popup_target_truthy. }
  assert (Hr3 : refuses e o3 = false).
  { unfold refuses in *. rewrite Ho3.
    now rewrite !get_set_other by discriminate. }
  destruct (open_on_ios e linkRef o3 None Hl Hr3 Hios) as [Hend Hin].
  - rewrite Ht. apply popup_target_truthy.
  - now rewrite Ht.
  - rewrite Hrun. unfold ended, effects in Hend, Hin.
    destruct (open e linkRef (Some o3) None) as [eff r].
    cbn in Hend, Hin. subst r. now split.
Qed.

Lemma popup_fails_on_ios_standalone_witness :
  ended_of (popup ios_web_app (LinkString "http://a/") (Some sample_options))
  = Throws JsTypeError
  /\ In (dispatch_click (window ios_web_app))
       (effects_of (popup ios_web_app (LinkString "http://a/")
                      (Some sample_options))).
Proof.
  apply (popup_fails_on_ios_standalone
           ios_web_app (LinkString "http://a/") sample_options).
  - discriminate.
  - reflexivity.
  - reflexivity.
  - reflexivity.
Defined.

(** ** openBlank *)



(** ** Concrete runs of open *)

Lemma open_raises_before_any_effect_witness :
  effects (open (desktop true "unsafe-url" false) (LinkString "http://a/")
             (Some sample_options) None) = []
  /\ (JsError unsafe_url_message = JsTypeError
      \/ JsError unsafe_url_message = JsError unsafe_url_message).
Proof.
  apply (proj2 (proj2 (open_raises_before_any_effect
                         (desktop true "unsafe-url" false)
                         (LinkString "http://a/") (Some sample_options) None))
           (JsError unsafe_url_message)).
  reflexivity.
Defined.

Lemma opener_is_cleared_exactly_on_request_witness :
  In set_opener_null
    (effects (open (desktop false "no-referrer" false)
                (LinkString "http://a/") (Some sample_options) None)).
Proof.
  apply (proj2 (opener_is_cleared_exactly_on_request
                  (desktop false "no-referrer" false)
                  (LinkString "http://a/") (Some sample_options) None)).
  split.
  - exists sample_popup. reflexivity.
  - right. split; reflexivity.
Defined.
